(** * DapAutoBot: the account-processing pipeline of [index.js]

    A shallow embedding of the request client ([requestWithRetry]), the
    login protocol, the task engine, the account processor and the cycle
    scheduler, with the properties of the specification stated over it.

    JavaScript values that reach the code from the server are modelled by
    [value]; asynchronous functions become computations in a state and
    exception monad [M] over the process state [World]; everything the
    process does to the outside (HTTP calls, timers, log lines) is
    appended to a trace of [Event]s. *)

From Stdlib Require Import QArith Qcanon Qround.
From stdpp Require Import base option list strings pretty gmap.

Local Set Warnings "-register-all".
Local Open Scope string_scope.

(** ** JavaScript values *)

(** The values a parsed JSON body can hold, plus [undefined], which is what
    reading a missing property gives. Numbers are exact rationals: the code
    only tests them for truthiness. *)
Inductive value : Type :=
  | VUndef
  | VNull
  | VBool (b : bool)
  | VNum (q : Qc)
  | VStr (s : string)
  | VArr (l : list value)
  | VObj (m : gmap string value).

(** [if (v)]: the falsy values are undefined, null, false, 0 and the empty
    string. *)
Definition truthy (v : value) : bool :=
  match v with
  | VUndef | VNull => false
  | VBool b => b
  | VNum q => if Qc_eq_dec q 0%Qc then false else true
  | VStr s => negb (String.eqb s EmptyString)
  | VArr _ | VObj _ => true
  end.

(** [a || b] *)
Definition js_or (a b : value) : value := if truthy a then a else b.

(** [v === null] *)
Definition is_null (v : value) : bool :=
  match v with VNull => true | _ => false end.

(** [v === 'lit'] for a string literal *)
Definition str_eq (v : value) (lit : string) : bool :=
  match v with VStr s => String.eqb s lit | _ => false end.

(** ** Errors and the computation monad *)

Record Response := { status : Z; data : value }.

(** A thrown JavaScript error: its [message], and for the errors axios
    raises on a rejected status the [response] that was received. *)
Record JsError := { message : string; response : option Response }.

Definition Error (msg : string) : JsError :=
  {| message := msg; response := None |}.

Inductive Res (A : Type) : Type :=
  | Ok (a : A)
  | Throw (e : JsError).
Arguments Ok {A} a.
Arguments Throw {A} e.

(** ** What the process sends and receives *)

Inductive Verb := GET | POST.

(** The endpoints the code addresses. Each constructor stands for one URL
    literal of the source; [UrlComplete] is the template
    [`https://api.dapcoin.xyz/api/tasks/${taskId}/complete`]. *)
Inductive Url :=
  | UrlLogin          (* https://api.dapcoin.xyz/api/auth/login *)
  | UrlVerify         (* https://api.dapcoin.xyz/api/auth/verify *)
  | UrlCheckin        (* https://api.dapcoin.xyz/api/checkin *)
  | UrlTasksOnce      (* https://api.dapcoin.xyz/api/tasks?limit=10000&frequency=ONCE *)
  | UrlTasksDaily     (* https://api.dapcoin.xyz/api/tasks?limit=10&frequency=DAILY *)
  | UrlComplete (taskId : value)
  | UrlMe             (* https://api.dapcoin.xyz/api/me *)
  | UrlIpify.         (* https://api.ipify.org?format=json *)

(** [config.validateStatus]: left unset (axios then accepts 200..299) or
    set to [status => status >= 200 && status < 500]. *)
Inductive StatusPolicy := DefaultStatus | Permissive.

Definition accepts (p : StatusPolicy) (s : Z) : bool :=
  match p with
  | DefaultStatus => (200 <=? s)%Z && (s <? 300)%Z
  | Permissive => (200 <=? s)%Z && (s <? 500)%Z
  end.

Inductive Agent :=
  | HttpsProxyAgent (proxy : string)
  | SocksProxyAgent (proxy : string).

(** The object [getAxiosConfig] builds. [authorization] is the token put
    after [Bearer ]; [httpsAgent] is [None] when the field is not set and
    [Some None] when it is set to null. The accept, connection, encoding
    and user-agent headers are never read back by the code and are left
    out. *)
Record AxiosConfig := {
  authorization : option value;
  timeout : Z;
  httpsAgent : option (option Agent);
  validateStatus : StatusPolicy
}.

Record Request := {
  verb : Verb;
  url : Url;
  payload : option value;
  config : AxiosConfig
}.

(** What the network does with one call: no response at all (connection
    failure, timeout), or a response with a status. *)
Inductive Wire :=
  | Unreachable (msg : string)
  | Answered (r : Response).

(** [context] strings: [`Account ${index + 1}/${total}`], and inside
    [completeTask] the same with [`|T${taskId.slice(-6)}`] appended. *)
Record Context := {
  account : nat;          (* index *)
  total : nat;
  task : option value     (* taskId *)
}.

Inductive Level := INFO | WARN | ERROR.

(** One constructor per [logger] call of the source. *)
Inductive LogLine :=
  | UnsupportedProxy (proxy : string)
  | Retrying (serverError : bool) (method : string) (u : Url) (attempt retries : nat) (ctx : Context)
  | LoadedKeys (n : nat)
  | FailedReadPk (msg : string)
  | NoProxiesFound
  | LoadedProxies (n : nat)
  | ProxyFileNotFound
  | StartingCheckin (ctx : Context)
  | StartingAccount (ctx : Context)
  | InvalidPrivateKey (msg : string) (ctx : Context)
  | Field (label : string) (v : value) (ctx : Context)      (* printInfo *)
  | StartingTasks (ctx : Context)
  | NoTasksReady (ctx : Context)
  | ErrorCompletingTask (taskId : value) (msg : string) (ctx : Context)
  | Processed (pending completed : nat) (ctx : Context)
  | TaskList (ctx : Context)
  | FailedProfileDisplay (ctx : Context)
  | CompletedAccount (ctx : Context)
  | ErrorProcessingAccount (msg : string) (ctx : Context)
  | FailedIP (msg : string) (ctx : Context)
  | NoProxiesAvailable
  | ProceedingWithoutProxy
  | NoPrivateKeys
  | CycleCompleted.

(** The [ora] spinners, by the operation that owns them. *)
Inductive Op :=
  | OpLogin | OpCheckin | OpFetchTasks | OpComplete (description : value)
  | OpProfile | OpRender.

Inductive Spin :=
  | SpinStart | SpinSucceed | SpinWarn | SpinFail (msg : string) | SpinStop.

(** Everything observable the process does, in order. *)
Inductive Event :=
  | Http (req : Request) (ans : Wire)
  | Timer (ms : Qc)
  | Log (lvl : Level) (line : LogLine)
  | Spinner (op : Op) (s : Spin)
  | Tick                                   (* bar.tick() *)
  | Header (title : string) (ctx : Context)  (* printHeader *)
  | Table (tasks : list value).            (* the table of formatTaskTable *)

(** ** Process state *)

(** The two module-level variables of the source, and the history of the
    run: how many HTTP calls and file reads were made, and the trace. *)
Record World := {
  globalUseProxy : bool;
  globalProxies : list string;
  calls : nat;
  reads : nat;
  trace : list Event
}.

(** What the outside world answers: the network per call, the file system
    per read, and the operator's reply to the start-up question. *)
Record Env := {
  wire : nat -> Request -> Wire;
  readFile : nat -> string -> string + string;   (* error message, or content *)
  answer : string
}.

Record Keypair := {
  address : string;          (* keypair.publicKey.toBase58() *)
  secretKey : list Byte.byte
}.

(** The library functions the code calls and that are not part of it. *)
Class Runtime := {
  (** [String.prototype.trim] *)
  trim : string -> string;
  (** [Keypair.fromSecretKey(bs58.decode(pk))]: the keypair, or the message
      of the error either call throws *)
  decodeKeypair : string -> string + Keypair;
  (** [new TextEncoder().encode(v)] *)
  encodeText : value -> list Byte.byte;
  (** [nacl.sign.detached(message, secretKey)] *)
  signDetached : list Byte.byte -> list Byte.byte -> list Byte.byte;
  (** [Buffer.from(bytes).toString('base64')] *)
  toBase64 : list Byte.byte -> string;
  (** [new URL(proxy)], which both proxy agents run on their argument: the
      message of the error it throws on a string that is not a URL *)
  urlError : string -> option string
}.

Definition M (A : Type) : Type := World -> Res A * World.

#[global] Instance M_ret : MRet M := fun A a w => (Ok a, w).
#[global] Instance M_bind : MBind M := fun A B f m w =>
  match m w with
  | (Ok a, w') => f a w'
  | (Throw e, w') => (Throw e, w')
  end.

Definition throw {A} (e : JsError) : M A := fun w => (Throw e, w).

(** [try { body } catch (error) { handler }] *)
Definition try_catch {A} (body : M A) (handler : JsError -> M A) : M A :=
  fun w =>
    match body w with
    | (Ok a, w') => (Ok a, w')
    | (Throw e, w') => handler e w'
    end.

(** The world after the events [t] have happened. *)
Definition after (w : World) (t : list Event) : World :=
  {| globalUseProxy := globalUseProxy w;
     globalProxies := globalProxies w;
     calls := calls w;
     reads := reads w;
     trace := trace w ++ t |}.

Definition emit (e : Event) : M unit := fun w => (Ok tt, after w [e]).

Definition logger (lvl : Level) (line : LogLine) : M unit := emit (Log lvl line).

(** Number literals of the source, as exact rationals. *)
Definition num (n : Z) : Qc := Q2Qc (inject_Z n).
Definition one_and_a_half : Qc := Q2Qc (3 # 2).

(** [delay(seconds)] arms a timer of [seconds * 1000] milliseconds. *)
Definition delay (seconds : Qc) : M unit := emit (Timer (seconds * num 1000)%Qc).

(** ** The request client *)

Section Bot.
Context {rt : Runtime} (env : Env).

(** [String.prototype.toLowerCase], on the ASCII letters: enough to decide
    the comparisons with ['get'], ['post'] and ['y'] the code makes, since
    no other character lowers to one of their letters. *)
Definition lower (c : Ascii.ascii) : Ascii.ascii :=
  let n := Ascii.nat_of_ascii c in
  if (65 <=? n)%nat && (n <=? 90)%nat then Ascii.ascii_of_nat (n + 32) else c.

Fixpoint toLowerCase (s : string) : string :=
  match s with
  | EmptyString => EmptyString
  | String c s' => String (lower c) (toLowerCase s')
  end.

(** axios' message for a status the policy rejects *)
Definition status_message (s : Z) : string :=
  "Request failed with status code " ++ pretty s.

(** How axios settles a call: it resolves with the response when
    [validateStatus] accepts the status, and rejects otherwise. *)
Definition settle (p : StatusPolicy) (ans : Wire) : Res Response :=
  match ans with
  | Unreachable msg => Throw {| message := msg; response := None |}
  | Answered r =>
      if accepts p (status r) then Ok r
      else Throw {| message := status_message (status r); response := Some r |}
  end.

(** One [axios.get] / [axios.post]: the call goes on the wire and is
    settled. *)
Definition axios (v : Verb) (u : Url) (body : option value) (cfg : AxiosConfig) : M Response :=
  fun w =>
    let req := {| verb := v; url := u; payload := body; config := cfg |} in
    let ans := wire env (calls w) req in
    (settle (validateStatus cfg) ans,
     {| globalUseProxy := globalUseProxy w;
        globalProxies := globalProxies w;
        calls := S (calls w);
        reads := reads w;
        trace := trace w ++ [Http req ans] |}).

(** The body of the [try] of [requestWithRetry]. *)
Definition attempt (method : string) (u : Url) (body : value) (cfg : AxiosConfig) : M Response :=
  if String.eqb (toLowerCase method) "get" then axios GET u None cfg
  else if String.eqb (toLowerCase method) "post" then axios POST u (Some body) cfg
  else throw (Error ("Method " ++ method ++ " not supported")).

(** [error.response && error.response.status >= 500] *)
Definition server_error (e : JsError) : bool :=
  match response e with
  | Some r => (500 <=? status r)%Z
  | None => false
  end.

(** The [for] loop of [requestWithRetry] from iteration [i] on, with
    [left] iterations to go ([i + left = retries]). Leaving the loop
    returns undefined ([None]). [backoff] is a rational here and a double in
    the source; the values it takes from the 2000 every caller passes (2000,
    3000, 4500) and their quotients by 1000 are exact in both. *)
Fixpoint requestLoop (left i retries : nat) (backoff : Qc)
    (method : string) (u : Url) (body : value) (cfg : AxiosConfig) (ctx : Context)
    : M (option Response) :=
  match left with
  | O => mret None
  | S left' =>
      try_catch
        (r ← attempt method u body cfg; mret (Some r))
        (fun error =>
           if server_error error && (i <? retries - 1)%nat then
             logger WARN (Retrying true method u (i + 1) retries ctx);;
             delay (backoff / num 1000)%Qc;;
             requestLoop left' (S i) retries (backoff * one_and_a_half)%Qc method u body cfg ctx
           else if (i <? retries - 1)%nat then
             logger WARN (Retrying false method u (i + 1) retries ctx);;
             delay (backoff / num 1000)%Qc;;
             requestLoop left' (S i) retries (backoff * one_and_a_half)%Qc method u body cfg ctx
           else throw error)
  end.

Definition requestWithRetry (method : string) (u : Url) (body : value) (cfg : AxiosConfig)
    (retries : nat) (backoff : Qc) (ctx : Context) : M (option Response) :=
  requestLoop retries 0 retries backoff method u body cfg ctx.

(** ** Reading what the server sent *)

Definition TypeError (msg : string) : JsError := Error msg.

Definition lift {A} (r : Res A) : M A := fun w => (r, w).

(** [v.k] for the property names the code reads ([token], [nonce], [data],
    [status], [message], [points_awarded], [wallet_address], [id],
    [points], [ip], [user_completion], [description]): a TypeError on
    undefined and null, the stored value on an object, and undefined on any
    other value, none of which has a property of these names. *)
Definition prop (v : value) (k : string) : Res value :=
  match v with
  | VUndef => Throw (TypeError ("Cannot read properties of undefined (reading '" ++ k ++ "')"))
  | VNull => Throw (TypeError ("Cannot read properties of null (reading '" ++ k ++ "')"))
  | VObj m => Ok (default VUndef (m !! k))
  | _ => Ok VUndef
  end.

(** [response.data], where [response] is what [requestWithRetry] returned *)
Definition data_of (r : option Response) : Res value :=
  match r with
  | Some r => Ok (data r)
  | None => Throw (TypeError "Cannot read properties of undefined (reading 'data')")
  end.

(** [response.data.k] *)
Definition body_prop (r : option Response) (k : string) : M value :=
  lift (match data_of r with Ok d => prop d k | Throw e => Throw e end).

(** ** Request configuration *)

Definition newAgent (proxy : value) : M (option Agent) :=
  match proxy with
  | VStr p =>
      if String.prefix "http://" p || String.prefix "https://" p then
        match urlError p with
        | Some msg => throw (TypeError msg)
        | None => mret (Some (HttpsProxyAgent p))
        end
      else if String.prefix "socks4://" p || String.prefix "socks5://" p then
        match urlError p with
        | Some msg => throw (TypeError msg)
        | None => mret (Some (SocksProxyAgent p))
        end
      else
        logger WARN (UnsupportedProxy p);;
        mret None
  | _ => throw (TypeError "proxy.startsWith is not a function")
  end.

Definition getAxiosConfig (proxy token : value) : M AxiosConfig :=
  let auth := if truthy token then Some token else None in
  if truthy proxy then
    agent ← newAgent proxy;
    mret {| authorization := auth; timeout := 60000;
            httpsAgent := Some agent; validateStatus := DefaultStatus |}
  else
    mret {| authorization := auth; timeout := 60000;
            httpsAgent := None; validateStatus := DefaultStatus |}.

(** [config.validateStatus = (status) => status >= 200 && status < 500] *)
Definition permissive (cfg : AxiosConfig) : AxiosConfig :=
  {| authorization := authorization cfg; timeout := timeout cfg;
     httpsAgent := httpsAgent cfg; validateStatus := Permissive |}.

(** ** Authentication *)

Definition loginPayload (addr : string) : value :=
  VObj (<["wallet_address" := VStr addr]>
        (<["ref" := VStr "Z-WEZFT9"]>
         (<["email" := VNull]>
          (<["username" := VNull]> ∅)))).

(** The signature sent back for a nonce. *)
Definition signatureBase64 (keypair : Keypair) (nonce : value) : string :=
  toBase64 (signDetached (encodeText nonce) (secretKey keypair)).

Definition verifyPayload (keypair : Keypair) (nonce : value) : value :=
  VObj (<["signature" := VStr (signatureBase64 keypair nonce)]>
        (<["wallet_address" := VStr (address keypair)]> ∅)).

Definition login (keypair : Keypair) (proxy : value) (ctx : Context) : M value :=
  cfg ← getAxiosConfig proxy VNull;
  emit (Spinner OpLogin SpinStart);;
  try_catch
    (response ← requestWithRetry "post" UrlLogin (loginPayload (address keypair)) cfg 3 (num 2000) ctx;
     token ← body_prop response "token";
     if truthy token then
       emit (Spinner OpLogin SpinSucceed);;
       mret token
     else
       nonce ← body_prop response "nonce";
       if truthy nonce then
         verifyResponse ← requestWithRetry "post" UrlVerify (verifyPayload keypair nonce) cfg 3 (num 2000) ctx;
         emit (Spinner OpLogin SpinSucceed);;
         body_prop verifyResponse "token"
       else
         throw (Error "Unexpected response: neither token nor nonce received"))
    (fun error =>
       emit (Spinner OpLogin (SpinFail (" Login failed: " ++ message error)));;
       throw (Error ("Failed to login: " ++ message error))).

(** ** Check-in *)

Inductive Note :=
  | CheckedIn (points : value)
  | ServerMessage (v : value)
  | Completed (description : value)
  | FailedToComplete (description : value)
  | Failed (msg : string).

(** The [{ success, message }] objects *)
Record Outcome := { success : bool; note : Note }.

Definition dailyCheckin (token proxy : value) (ctx : Context) : M Outcome :=
  logger INFO (StartingCheckin ctx);;
  cfg ← getAxiosConfig proxy token;
  emit (Spinner OpCheckin SpinStart);;
  try_catch
    (response ← requestWithRetry "post" UrlCheckin VNull (permissive cfg) 3 (num 2000) ctx;
     msg ← body_prop response "message";
     if str_eq msg "Checked in" then
       points ← body_prop response "points_awarded";
       emit (Spinner OpCheckin SpinSucceed);;
       mret {| success := true; note := CheckedIn points |}
     else
       emit (Spinner OpCheckin SpinWarn);;
       mret {| success := false; note := ServerMessage msg |})
    (fun error =>
       emit (Spinner OpCheckin (SpinFail (" Daily check-in failed: " ++ message error)));;
       mret {| success := false; note := Failed (message error) |}).

(** ** Task engine *)

(** [allTasks.concat(x)]: an array argument is spread, any other value is
    appended as one element. *)
Definition js_concat (allTasks : list value) (x : value) : list value :=
  match x with
  | VArr l => allTasks ++ l
  | _ => allTasks ++ [x]
  end.

(** The request one round of the loop of [fetchActiveTasks] makes. *)
Definition catalogRequest (u : Url) (token proxy : value) (ctx : Context) : M (option Response) :=
  cfg ← getAxiosConfig proxy token;
  requestWithRetry "get" u VNull cfg 3 (num 2000) ctx.

(** The [for (const url of urls)] loop of [fetchActiveTasks]. *)
Fixpoint fetchCatalogs (urls : list Url) (allTasks : list value)
    (token proxy : value) (ctx : Context) : M (list value) :=
  match urls with
  | [] => mret allTasks
  | u :: rest =>
      response ← catalogRequest u token proxy ctx;
      catalog ← body_prop response "data";
      fetchCatalogs rest (js_concat allTasks catalog) token proxy ctx
  end.

Definition fetchActiveTasks (token proxy : value) (ctx : Context) : M (list value) :=
  emit (Spinner OpFetchTasks SpinStart);;
  try_catch
    (allTasks ← fetchCatalogs [UrlTasksOnce; UrlTasksDaily] [] token proxy ctx;
     emit (Spinner OpFetchTasks SpinStop);;
     mret allTasks)
    (fun error =>
       emit (Spinner OpFetchTasks (SpinFail (" Failed to fetch active tasks: " ++ message error)));;
       mret []).

(** [taskId.slice(-6)] exists on strings and arrays only. *)
Definition slice_check (taskId : value) : Res unit :=
  match taskId with
  | VStr _ | VArr _ => Ok tt
  | VUndef => Throw (TypeError "Cannot read properties of undefined (reading 'slice')")
  | VNull => Throw (TypeError "Cannot read properties of null (reading 'slice')")
  | _ => Throw (TypeError "taskId.slice is not a function")
  end.

Definition completeTask (token taskId taskDescription proxy : value) (ctx : Context) : M Outcome :=
  lift (slice_check taskId);;
  let taskContext := {| account := account ctx; total := total ctx; task := Some taskId |} in
  cfg ← getAxiosConfig proxy token;
  emit (Spinner (OpComplete taskDescription) SpinStart);;
  try_catch
    (response ← requestWithRetry "post" (UrlComplete taskId) VNull (permissive cfg) 3 (num 2000) taskContext;
     st ← body_prop response "status";
     if str_eq st "APPROVED" then
       emit (Spinner (OpComplete taskDescription) SpinSucceed);;
       mret {| success := true; note := Completed taskDescription |}
     else
       emit (Spinner (OpComplete taskDescription) SpinWarn);;
       mret {| success := false; note := FailedToComplete taskDescription |})
    (fun error =>
       emit (Spinner (OpComplete taskDescription)
               (SpinFail (" Failed to complete: " ++ message error)));;
       mret {| success := false; note := Failed (message error) |}).

Record Profile := { profileAddress : value; userId : value; totalPoints : value }.

(** Returns [None] for the [null] of the [catch] branch. *)
Definition fetchProfileInfo (token proxy : value) (ctx : Context) : M (option Profile) :=
  cfg ← getAxiosConfig proxy token;
  emit (Spinner OpProfile SpinStart);;
  try_catch
    (response ← requestWithRetry "get" UrlMe VNull cfg 3 (num 2000) ctx;
     emit (Spinner OpProfile SpinStop);;
     a ← body_prop response "wallet_address";
     u ← body_prop response "id";
     p ← body_prop response "points";
     mret (Some {| profileAddress := a; userId := u; totalPoints := p |}))
    (fun error =>
       emit (Spinner OpProfile (SpinFail (" Failed to fetch profile info: " ++ message error)));;
       mret None).

Definition getPublicIP (proxy : value) (ctx : Context) : M value :=
  try_catch
    (cfg ← getAxiosConfig proxy VNull;
     response ← requestWithRetry "get" UrlIpify VNull cfg 3 (num 2000) ctx;
     ip ← body_prop response "ip";
     mret (js_or ip (VStr "Unknown")))
    (fun error =>
       logger ERROR (FailedIP (message error) ctx);;
       mret (VStr "Error retrieving IP")).

(** ** Display *)

Definition printInfo (label : string) (v : value) (ctx : Context) : M unit :=
  logger INFO (Field label v ctx).

(** [totalPoints.toString()] throws on undefined and null. *)
Definition printProfileInfo (addr uid points : value) (ctx : Context) : M unit :=
  emit (Header "Profile Info" ctx);;
  printInfo "Address" (js_or addr (VStr "N/A")) ctx;;
  printInfo "User ID" (js_or uid (VStr "N/A")) ctx;;
  match points with
  | VUndef => throw (TypeError "Cannot read properties of undefined (reading 'toString')")
  | VNull => throw (TypeError "Cannot read properties of null (reading 'toString')")
  | _ => printInfo "Total Points" points ctx
  end.

(** The row of a task reads [task.description], [task.user_completion],
    [task.frequency] and [task.points]. *)
Fixpoint rows (tasks : list value) : Res unit :=
  match tasks with
  | [] => Ok tt
  | t :: rest =>
      match prop t "description" with
      | Ok _ => rows rest
      | Throw e => Throw e
      end
  end.

Definition formatTaskTable (tasks : list value) (ctx : Context) : M unit :=
  logger INFO (TaskList ctx);;
  emit (Spinner OpRender SpinStart);;
  emit (Timer (num 1000));;
  emit (Spinner OpRender SpinStop);;
  lift (rows tasks);;
  emit (Table tasks).

(** ** Account processor *)

(** [activeTasks.filter(task => task.user_completion === null)] *)
Fixpoint pendingFilter (tasks : list value) : Res (list value) :=
  match tasks with
  | [] => Ok []
  | t :: rest =>
      match prop t "user_completion" with
      | Throw e => Throw e
      | Ok marker =>
          match pendingFilter rest with
          | Throw e => Throw e
          | Ok kept => Ok (if is_null marker then t :: kept else kept)
          end
      end
  end.

(** The [try] statement in the body of the [for (const task of
    pendingTasks)] loop of [processAccount]; the result is
    [completedCount] after it. *)
Definition completeOne (t : value) (completedCount : nat)
    (token proxy : value) (ctx : Context) : M nat :=
  try_catch
    (id ← lift (prop t "id");
     description ← lift (prop t "description");
     result ← completeTask token id (js_or description (VStr "Unknown Task")) proxy ctx;
     mret (if success result then S completedCount else completedCount))
    (fun error =>
       id ← lift (prop t "id");
       logger ERROR (ErrorCompletingTask id (message error) ctx);;
       mret completedCount).

(** The loop itself; the result is [completedCount] when it ends. *)
Fixpoint completeAll (pendingTasks : list value) (completedCount : nat)
    (token proxy : value) (ctx : Context) : M nat :=
  match pendingTasks with
  | [] => mret completedCount
  | t :: rest =>
      count ← completeOne t completedCount token proxy ctx;
      emit Tick;;
      delay (num 2);;
      completeAll rest count token proxy ctx
  end.

(** The part of [processAccount] that follows [fetchActiveTasks], up to
    the end of its [try] block. *)
Definition taskPass (activeTasks : list value) (token proxy : value) (ctx : Context) : M unit :=
  pendingTasks ← lift (pendingFilter activeTasks);
  (if (length pendingTasks =? 0)%nat then
     logger INFO (NoTasksReady ctx)
   else
     completedCount ← completeAll pendingTasks 0 token proxy ctx;
     logger INFO (Processed (length pendingTasks) completedCount ctx));;
  formatTaskTable activeTasks ctx;;
  updatedProfileInfo ← fetchProfileInfo token proxy ctx;
  match updatedProfileInfo with
  | Some p => printProfileInfo (profileAddress p) (userId p) (totalPoints p) ctx
  | None => logger WARN (FailedProfileDisplay ctx)
  end;;
  logger INFO (CompletedAccount ctx).

(** What [processAccount] does once the key is decoded. *)
Definition session (keypair : Keypair) (proxy : value) (ctx : Context) : M unit :=
  emit (Header "Account Info" ctx);;
  printInfo "Address" (VStr (address keypair)) ctx;;
  ip ← getPublicIP proxy ctx;
  printInfo "IP" ip ctx;;
  try_catch
    (token ← login keypair proxy ctx;
     dailyCheckin token proxy ctx;;
     logger INFO (StartingTasks ctx);;
     activeTasks ← fetchActiveTasks token proxy ctx;
     taskPass activeTasks token proxy ctx)
    (fun error => logger ERROR (ErrorProcessingAccount (message error) ctx)).

Definition processAccount (pk : string) (index total : nat) (proxy : value) : M unit :=
  let ctx := {| account := index; total := total; task := None |} in
  logger INFO (StartingAccount ctx);;
  match decodeKeypair pk with
  | inl msg => logger ERROR (InvalidPrivateKey msg ctx)
  | inr keypair => session keypair proxy ctx
  end.

(** ** Configuration and input files *)

(** [data.split('\n')] *)
Fixpoint split_lines (data : string) : list string :=
  match data with
  | EmptyString => [EmptyString]
  | String c rest =>
      if Ascii.eqb c (Ascii.ascii_of_nat 10) then EmptyString :: split_lines rest
      else match split_lines rest with
           | line :: more => String c line :: more
           | [] => [String c EmptyString]
           end
  end.

(** [data.split('\n').map(line => line.trim()).filter(line => line.length > 0)] *)
Definition entries (data : string) : list string :=
  List.filter (fun line => negb (String.eqb line EmptyString)) (List.map trim (split_lines data)).

(** [fs.readFile(name, 'utf-8')] *)
Definition fsRead (name : string) : M string := fun w =>
  let w' := {| globalUseProxy := globalUseProxy w;
               globalProxies := globalProxies w;
               calls := calls w;
               reads := S (reads w);
               trace := trace w |} in
  match readFile env (reads w) name with
  | inl msg => (Throw (Error msg), w')
  | inr content => (Ok content, w')
  end.

Definition readPKs : M (list string) :=
  try_catch
    (content ← fsRead "pk.txt";
     let pks := entries content in
     logger INFO (LoadedKeys (length pks));;
     mret pks)
    (fun error =>
       logger ERROR (FailedReadPk (message error));;
       mret []).

Definition readProxies : M (list string) :=
  try_catch
    (content ← fsRead "proxy.txt";
     let proxies := entries content in
     (if (length proxies =? 0)%nat then logger WARN NoProxiesFound
      else logger INFO (LoadedProxies (length proxies)));;
     mret proxies)
    (fun error =>
       logger WARN ProxyFileNotFound;;
       mret []).

Definition setUseProxy (b : bool) : M unit := fun w =>
  (Ok tt, {| globalUseProxy := b;
             globalProxies := globalProxies w;
             calls := calls w;
             reads := reads w;
             trace := trace w |}).

Definition setProxies (l : list string) : M unit := fun w =>
  (Ok tt, {| globalUseProxy := globalUseProxy w;
             globalProxies := l;
             calls := calls w;
             reads := reads w;
             trace := trace w |}).

Definition initializeConfig : M unit :=
  if String.eqb (toLowerCase (trim (answer env))) "y" then
    setUseProxy true;;
    proxies ← readProxies;
    setProxies proxies;;
    if (length proxies =? 0)%nat then
      setUseProxy false;;
      logger WARN NoProxiesAvailable
    else mret tt
  else
    logger INFO ProceedingWithoutProxy.

(** ** Cycle scheduler *)

(** [globalUseProxy ? globalProxies[i % globalProxies.length] : null].
    With an empty list the index is [NaN] and the element undefined. *)
Definition assignedProxy (useProxy : bool) (proxies : list string) (i : nat) : value :=
  if useProxy then
    match length proxies with
    | O => VUndef
    | S _ =>
        match proxies !! (i mod length proxies)%nat with
        | Some p => VStr p
        | None => VUndef
        end
    end
  else VNull.

(** The [for] loop of [runCycle] from index [i] on; [todo] is [pks] from
    that index. *)
Fixpoint accounts (todo : list string) (i total : nat) : M unit :=
  match todo with
  | [] => mret tt
  | pk :: rest =>
      (fun w =>
         let proxy := assignedProxy (globalUseProxy w) (globalProxies w) i in
         try_catch
           (processAccount pk i total proxy)
           (fun error =>
              logger ERROR (ErrorProcessingAccount (message error)
                              {| account := i; total := total; task := None |}))
           w);;
      delay (num 5);;
      accounts rest (S i) total
  end.

Definition runCycle : M unit :=
  pks ← readPKs;
  if (length pks =? 0)%nat then
    logger ERROR NoPrivateKeys
  else
    accounts pks 0 (length pks).

(** The first [n] rounds of the [while (true)] loop of [run]. *)
Fixpoint cycles (n : nat) : M unit :=
  match n with
  | O => mret tt
  | S n' =>
      runCycle;;
      logger INFO CycleCompleted;;
      delay (num 86400);;
      cycles n'
  end.

(** [run] up to the end of round [n] of its loop. *)
Definition run (n : nat) : M unit :=
  initializeConfig;;
  cycles n.

End Bot.

(** * Specification vocabulary *)

Local Open Scope list_scope.

(** ** How computations extend the world *)

Definition globals (w : World) : bool * list string :=
  (globalUseProxy w, globalProxies w).

(** [frames P m]: running [m] leaves the two global variables alone and only
    adds events that satisfy [P] to the trace. *)
Definition frames {A} (P : Event -> Prop) (m : M A) : Prop :=
  forall w, globals (m w).2 = globals w /\
            exists t, trace (m w).2 = trace w ++ t /\ Forall P t.

(** ** Observations on a trace *)

Definition timers (t : list Event) : list Qc :=
  omap (fun e => match e with Timer ms => Some ms | _ => None end) t.

Definition https (t : list Event) : list (Request * Wire) :=
  omap (fun e => match e with Http req ans => Some (req, ans) | _ => None end) t.

(** The responses that axios resolved with. *)
Definition accepted (t : list Event) : list Response :=
  omap (fun e => match e with
                 | Http req (Answered r) =>
                     if accepts (validateStatus (config req)) (status r) then Some r else None
                 | _ => None
                 end) t.

(** [response.data.status === 'APPROVED'] *)
Definition approved (r : Response) : bool :=
  match prop (data r) "status" with
  | Ok st => str_eq st "APPROVED"
  | Throw _ => false
  end.

Definition approvals (t : list Event) : nat := length (List.filter approved (accepted t)).

Definition ticks (t : list Event) : nat :=
  length (List.filter (fun e => match e with Tick => true | _ => false end) t).

Definition starts (t : list Event) : list Context :=
  omap (fun e => match e with Log INFO (StartingAccount c) => Some c | _ => None end) t.

(** The delay before the k-th retry, as the specification gives it:
    2000 * 1.5^(k-1) milliseconds. *)
Definition backoffDelay (k : nat) : Qc := (num 2000 * one_and_a_half ^ (k - 1))%Qc.

(** The world after one HTTP call. *)
Definition called (w : World) (req : Request) (ans : Wire) : World :=
  {| globalUseProxy := globalUseProxy w;
     globalProxies := globalProxies w;
     calls := S (calls w);
     reads := reads w;
     trace := trace w ++ [Http req ans] |}.

(** The request an attempt sends, if the method is one the client supports. *)
Definition request_of (method : string) (u : Url) (body : value) (cfg : AxiosConfig)
    : option Request :=
  if String.eqb (toLowerCase method) "get" then
    Some {| verb := GET; url := u; payload := None; config := cfg |}
  else if String.eqb (toLowerCase method) "post" then
    Some {| verb := POST; url := u; payload := Some body; config := cfg |}
  else None.


(** [safe m]: [m] never throws. *)
Definition safe {A} (m : M A) : Prop :=
  forall w, exists a w', m w = (Ok a, w').

(** Undefined and null. *)
Definition nullish (v : value) : bool :=
  match v with VUndef | VNull => true | _ => false end.

(** What a response carries under a key: the value of [response.data.key],
    undefined when there is none. *)
Definition carried (r : Response) (k : string) : value :=
  match prop (data r) k with
  | Ok v => v
  | Throw _ => VUndef
  end.

(** How [login] ends when the error [e] reaches its [catch]. *)
Definition loginFailure {A} (e : JsError) (w : World) : Res A * World :=
  (Throw (Error ("Failed to login: " ++ message e)%string),
   after w [Spinner OpLogin (SpinFail (" Login failed: " ++ message e)%string)]).

(** The context of account [index]. *)
Definition accountContext (index total : nat) : Context :=
  {| account := index; total := total; task := None |}.

(** The events with which [processAccount] opens for a key that decodes. *)
Definition accountOpening (keypair : Keypair) (ctx : Context) : list Event :=
  [Log INFO (StartingAccount ctx);
   Header "Account Info" ctx;
   Log INFO (Field "Address" (VStr (address keypair)) ctx)].

(** The completion marker of a task is absent: its [user_completion] is
    null. *)
Definition marker_absent (t : value) : bool :=
  match t with
  | VObj m => match m !! "user_completion" with Some VNull => true | _ => false end
  | _ => false
  end.

(** Events that are neither an HTTP call nor a tick of the progress bar. *)
Definition silent (e : Event) : Prop :=
  match e with Http _ _ | Tick => False | _ => True end.

(** Events other than the line that opens the processing of an account. *)
Definition inner (e : Event) : Prop :=
  match e with Log INFO (StartingAccount _) => False | _ => True end.

(** * Concrete inputs

    A small runtime and a few servers, used to run the definitions above on
    explicit inputs. *)

Module Demo.

Definition is_space (c : Ascii.ascii) : bool :=
  let n := Ascii.nat_of_ascii c in
  ((9 <=? n)%nat && (n <=? 13)%nat) || (n =? 32)%nat.

Fixpoint trimStart (s : string) : string :=
  match s with
  | String c rest => if is_space c then trimStart rest else s
  | EmptyString => EmptyString
  end.

Fixpoint trimEnd (s : string) : string :=
  match s with
  | String c rest =>
      let kept := trimEnd rest in
      if is_space c && String.eqb kept EmptyString then EmptyString else String c kept
  | EmptyString => EmptyString
  end.

(** Keys starting with [!] stand for the ones that fail to decode. *)
Definition decode (pk : string) : string + Keypair :=
  if String.prefix "!" pk then inl "Non-base58 character"%string
  else inr {| address := pk; secretKey := String.list_byte_of_string pk |}.

#[global] Instance runtime : Runtime := {|
  trim := fun s => trimEnd (trimStart s);
  decodeKeypair := decode;
  encodeText := fun v => match v with
                         | VStr s => String.list_byte_of_string s
                         | _ => []
                         end;
  signDetached := fun msg sk => (sk ++ msg)%list;
  toBase64 := String.string_of_list_byte;
  urlError := fun _ => None
|}.

Definition json (fields : list (string * value)) : value := VObj (list_to_map fields).

Definition ctx0 : Context := {| account := 0; total := 1; task := None |}.

Definition w0 : World :=
  {| globalUseProxy := false; globalProxies := []; calls := 0; reads := 0; trace := [] |}.

Definition plain : AxiosConfig :=
  {| authorization := None; timeout := 60000; httpsAgent := None;
     validateStatus := DefaultStatus |}.

Definition noFiles : nat -> string -> string + string :=
  fun _ _ => inl "ENOENT: no such file or directory"%string.

(** A server that answers every call with status 404. *)
Definition env404 : Env :=
  {| wire := fun _ _ => Answered {| status := 404; data := VNull |};
     readFile := noFiles;
     answer := "n" |}.

Definition ok (d : value) : Wire := Answered {| status := 200; data := d |}.

Definition completedAt : value := json [("completed_at", VStr "2025-06-01T00:00:00Z")].

Definition taskObj (id : string) (marker : value) : value :=
  json [("id", VStr id); ("description", VStr id); ("user_completion", marker)].

(** Five one-time tasks, two of them completed, and two daily tasks. *)
Definition onceCatalog : list value :=
  [taskObj "once-1" completedAt; taskObj "once-2" VNull; taskObj "once-3" completedAt;
   taskObj "once-4" VNull; taskObj "once-5" VNull].

Definition dailyCatalog : list value :=
  [taskObj "daily-1" VNull; taskObj "daily-2" VNull].

(** The pending ones among them. *)
Definition pendingFive : list value :=
  [taskObj "once-2" VNull; taskObj "once-4" VNull; taskObj "once-5" VNull;
   taskObj "daily-1" VNull; taskObj "daily-2" VNull].

Definition files : nat -> string -> string + string := fun _ name =>
  if String.eqb name "pk.txt" then inr "alice
!broken
carol
"%string
  else if String.eqb name "proxy.txt" then inr "http://10.0.0.1:8080
socks5://10.0.0.2:1080
"%string
  else inl "ENOENT: no such file or directory"%string.

(** A server that challenges every login with the nonce [abc], approves
    every task but [daily-2], and answers every other call as the API
    table of the specification says. *)
Definition server : Env :=
  {| wire := fun _ req =>
       match url req with
       | UrlLogin => ok (json [("nonce", VStr "abc")])
       | UrlVerify => ok (json [("token", VStr "session")])
       | UrlCheckin => ok (json [("message", VStr "Checked in"); ("points_awarded", VNum (num 10))])
       | UrlTasksOnce => ok (json [("data", VArr onceCatalog)])
       | UrlTasksDaily => ok (json [("data", VArr dailyCatalog)])
       | UrlComplete id =>
           if str_eq id "daily-2" then
             Answered {| status := 400; data := json [("status", VStr "REJECTED")] |}
           else ok (json [("status", VStr "APPROVED")])
       | UrlMe => ok (json [("wallet_address", VStr "alice"); ("id", VNum (num 7));
                            ("points", VNum (num 120))])
       | UrlIpify => ok (json [("ip", VStr "203.0.113.7")])
       end;
     readFile := files;
     answer := "y" |}.

(** A task that the server lists without a [user_completion] field. *)
Definition unmarkedTask : value :=
  json [("id", VStr "fresh-1"); ("description", VStr "Join the channel")].

(** The server above with that task as its whole one-time catalog and an
    empty daily catalog. *)
Definition unmarkedServer : Env :=
  {| wire := fun n req =>
       match url req with
       | UrlTasksOnce => ok (json [("data", VArr [unmarkedTask])])
       | UrlTasksDaily => ok (json [("data", VArr [])])
       | _ => wire server n req
       end;
     readFile := files;
     answer := "n" |}.

Definition alice : Keypair :=
  {| address := "alice"; secretKey := String.list_byte_of_string "alice" |}.

End Demo.

(** * Display helpers and the user-agent pool

    The pure helpers of the source that the pipeline above does not need.
    A string holds the UTF-8 encoding of the text, as a string literal of
    this file does; [units] gives the UTF-16 code units of the text, which
    are what [length], [slice] and [padEnd] of the source count. The
    pattern of [stripAnsi] is made of ASCII characters, which are one byte
    and one code unit each. *)

Local Open Scope string_scope.

(** [' '.repeat(n)] *)
Fixpoint spaces (n : nat) : string :=
  match n with
  | O => EmptyString
  | S n' => String (Ascii.ascii_of_nat 32) (spaces n')
  end.

(** A continuation byte of a UTF-8 sequence: 10xxxxxx. *)
Definition continuation (b : N) : bool := ((128 <=? b) && (b <? 192))%N.

(** The payload of the next [n] continuation bytes, appended to [acc]. *)
Fixpoint tail_bits (n : nat) (acc : N) (s : string) : N :=
  match n, s with
  | S k, String c rest => tail_bits k (acc * 64 + Ascii.N_of_ascii c mod 64)%N rest
  | _, _ => acc
  end.

(** The code point of the sequence that starts with the byte [b] and goes
    on in [rest]: one byte below 128, two below 224, three below 240, four
    from there. *)
Definition codePoint (b : N) (rest : string) : N :=
  if (b <? 128)%N then b
  else if (b <? 224)%N then tail_bits 1 (b mod 32)%N rest
  else if (b <? 240)%N then tail_bits 2 (b mod 16)%N rest
  else tail_bits 3 (b mod 8)%N rest.

(** The code units of a code point: itself, or the surrogate pair of a code
    point of a four-byte sequence (65536 and above). *)
Definition utf16 (b cp : N) : list N :=
  if (b <? 240)%N then cons cp nil
  else cons (55296 + (cp - 65536) / 1024)%N (cons (56320 + (cp - 65536) mod 1024)%N nil).

(** The UTF-16 code units of the text encoded in [s]: the JavaScript string
    itself. Every sequence gives its code units at its first byte. *)
Fixpoint units (s : string) : list N :=
  match s with
  | EmptyString => nil
  | String c rest =>
      let b := Ascii.N_of_ascii c in
      app (if continuation b then nil else utf16 b (codePoint b rest)) (units rest)
  end.

(** [s.padEnd(n)], on code units; 32 is the space. *)
Definition padEnd (s : list N) (n : nat) : list N :=
  app s (replicate (n - length s) 32%N).

Definition ESC : Ascii.ascii := Ascii.ascii_of_nat 27.

(** The class [[0-9;]]: the digits and the semicolon (code units 48 to 59,
    without the colon, 58). *)
Definition is_param (c : Ascii.ascii) : bool :=
  let n := Ascii.nat_of_ascii c in
  ((48 <=? n)%nat && (n <=? 57)%nat) || (n =? 59)%nat.

(** Matching [[0-9;]*m] ([m] is code unit 109) at the head of [s]: how many code units the match
    takes, if there is one. The star is greedy and [m] is outside the class,
    so there is at most one way to match. *)
Fixpoint params_len (s : string) : option nat :=
  match s with
  | EmptyString => None
  | String c rest =>
      if is_param c then option_map S (params_len rest)
      else if Ascii.eqb c (Ascii.ascii_of_nat 109) then Some 1%nat
      else None
  end.

(** Matching [/\x1B\[[0-9;]*m/] at the head of [s]; the bracket is code
    unit 91. *)
Definition ansi_len (s : string) : option nat :=
  match s with
  | String c (String d rest) =>
      if Ascii.eqb c ESC && Ascii.eqb d (Ascii.ascii_of_nat 91) then
        option_map (fun n => S (S n)) (params_len rest)
      else None
  | _ => None
  end.

(** [str.replace(/\x1B\[[0-9;]*m/g, '')], scanning from the left: [skip] is
    the number of code units of the current match still to drop. *)
Fixpoint strip (skip : nat) (s : string) : string :=
  match s with
  | EmptyString => EmptyString
  | String c rest =>
      match skip with
      | S k => strip k rest
      | O =>
          match ansi_len s with
          | Some n => strip (n - 1) rest
          | None => String c (strip 0 rest)
          end
      end
  end.

Definition stripAnsi (str : string) : string := strip 0 str.

(** [centerText(text, width)]; [width] is a number of columns. *)
Definition centerText (text : string) (width : Z) : string :=
  let cleanText := stripAnsi text in
  let textLength := Z.of_nat (length (units cleanText)) in
  let totalPadding := Z.max 0 (width - textLength) in
  let leftPadding := (totalPadding / 2)%Z in
  let rightPadding := (totalPadding - leftPadding)%Z in
  spaces (Z.to_nat leftPadding) ++ text ++ spaces (Z.to_nat rightPadding).

(** The [displayName] of a row of [formatTaskTable], from
    [task.description], as code units. *)
Definition displayName (description : value) : list N :=
  match description with
  | VStr s =>
      if truthy description then
        if (20 <? length (units s))%nat then app (take 17 (units s)) (units "...")
        else units s
      else units "Unknown Task"
  | _ => units "Unknown Task"
  end.

(** The first column of a row: [displayName.padEnd(20)]. *)
Definition nameColumn (description : value) : list N :=
  padEnd (displayName description) 20.

(** The two lines [run] centres, and the width it falls back to. *)
Definition channelBanner : string := "=== Telegram Channel 🚀 : NT Exhaust (@NTExhaust) ===".
Definition botBanner : string := "✪ DAPCOIN AUTO DAILY BOT ✪".

Definition userAgents : list string :=
  ["Mozilla/5.0 (Windows NT 10.0; Win64; x64) AppleWebKit/537.36 (KHTML, like Gecko) Chrome/134.0.0.0 Safari/537.36";
   "Mozilla/5.0 (Macintosh; Intel Mac OS X 10_15_7) AppleWebKit/605.1.15 (KHTML, like Gecko) Version/15.0 Safari/605.1.15";
   "Mozilla/5.0 (X11; Linux x86_64) AppleWebKit/537.36 (KHTML, like Gecko) Chrome/105.0.0.0 Safari/537.36";
   "Mozilla/5.0 (Windows NT 10.0; Win64; x64) Firefox/102.0"]%list.

(** [userAgents[Math.floor(Math.random() * userAgents.length)]], given the
    number [Math.random()] returned. *)
Definition getRandomUserAgent (random : Q) : value :=
  let index := Qfloor (random * inject_Z (Z.of_nat (length userAgents))) in
  if (index <? 0)%Z then VUndef
  else match userAgents !! Z.to_nat index with
       | Some ua => VStr ua
       | None => VUndef
       end.

(** [lines.join('\n')] *)
Fixpoint join_lines (lines : list string) : string :=
  match lines with
  | nil => EmptyString
  | cons line nil => line
  | cons line more =>
      String.append line (String (Ascii.ascii_of_nat 10) (join_lines more))
  end.

Local Open Scope list_scope.

(** * Vocabulary for the properties of the whole pipeline *)

(** The code unit [c] does not occur in [s]. *)
Fixpoint without (c : Ascii.ascii) (s : string) : Prop :=
  match s with
  | EmptyString => True
  | String d rest => d <> c /\ without c rest
  end.

(** Every code unit of [s] is a digit or a semicolon. *)
Fixpoint all_params (s : string) : Prop :=
  match s with
  | EmptyString => True
  | String c rest => is_param c = true /\ all_params rest
  end.

(** The escape sequence with parameters [p]: ESC, bracket, [p], m. *)
Definition sgr (p : string) : string :=
  String ESC (String (Ascii.ascii_of_nat 91)
                (String.append p (String (Ascii.ascii_of_nat 109) EmptyString))).

(** The requests in a trace, in order. *)
Definition requests (t : list Event) : list Request := (https t).*1.

(** [sends R Q m]: every request [m] sends satisfies [R], and when [m]
    returns, its result satisfies [Q]. *)
Definition sends {A} (R : Request -> Prop) (Q : A -> Prop) (m : M A) : Prop :=
  forall w,
    (exists t, trace (m w).2 = trace w ++ t /\ Forall R (requests t)) /\
    (forall a, (m w).1 = Ok a -> Q a).

(** [costs k m]: [m] makes at most [k] HTTP calls. *)
Definition costs {A} (k : nat) (m : M A) : Prop :=
  forall w, (calls (m w).2 <= calls w + k)%nat.

(** [ends e m]: when [m] returns, [e] is the last thing that happened. *)
Definition ends {A} (e : Event) (m : M A) : Prop :=
  forall w a w', m w = (Ok a, w') -> exists t, trace w' = t ++ [e].

(** The schemes [newAgent] knows. *)
Definition httpScheme (p : string) : bool :=
  String.prefix "http://" p || String.prefix "https://" p.

Definition socksScheme (p : string) : bool :=
  String.prefix "socks4://" p || String.prefix "socks5://" p.

(** The [httpsAgent] field of the configurations built for [proxy]: unset
    without a proxy, the agent of its scheme, or null for a scheme that is
    not supported. *)
Definition agentOf (proxy : value) : option (option Agent) :=
  match proxy with
  | VStr p =>
      if truthy proxy then
        if httpScheme p then Some (Some (HttpsProxyAgent p))
        else if socksScheme p then Some (Some (SocksProxyAgent p))
        else Some None
      else None
  | _ => None
  end.

(** The configuration of a request made through [proxy] for the session
    [token], with the status policy [policy]. *)
Definition configFor (proxy token : value) (policy : StatusPolicy) : AxiosConfig :=
  {| authorization := if truthy token then Some token else None;
     timeout := 60000;
     httpsAgent := agentOf proxy;
     validateStatus := policy |}.

(** How the code addresses each endpoint: the verb, the status policy, and
    whether the session token goes with the request. *)
Definition endpoint (u : Url) : Verb * StatusPolicy * bool :=
  match u with
  | UrlLogin | UrlVerify => (POST, DefaultStatus, false)
  | UrlIpify => (GET, DefaultStatus, false)
  | UrlCheckin => (POST, Permissive, true)
  | UrlTasksOnce | UrlTasksDaily => (GET, DefaultStatus, true)
  | UrlComplete _ => (POST, Permissive, true)
  | UrlMe => (GET, DefaultStatus, true)
  end.

Definition disciplined (proxy token : value) (req : Request) : Prop :=
  verb req = (endpoint (url req)).1.1 /\
  config req =
    configFor proxy (if (endpoint (url req)).2 then token else VNull) (endpoint (url req)).1.2.

(** [task.id], undefined when there is none. *)
Definition task_id (t : value) : value :=
  match prop t "id" with
  | Ok v => v
  | Throw _ => VUndef
  end.

(** The requests the task pass may send for the active tasks [active]: the
    profile request, and the completion of a task whose completion marker
    is absent. *)
Definition completes_pending (active : list value) (req : Request) : Prop :=
  url req = UrlMe \/
  exists t, In t active /\ marker_absent t = true /\ url req = UrlComplete (task_id t).

(** ** Calls and pauses *)

(** The calls and the pauses in a trace, in order. *)
Definition steps (t : list Event) : list Event :=
  List.filter (fun e => match e with Http _ _ | Timer _ => true | _ => false end) t.

(** The attempts of one request that were answered with [answers], with
    the pause the specification gives before each retry: the retry number
    [k] comes [backoffDelay k] after the attempt before it. *)
Fixpoint schedule (req : Request) (k : nat) (answers : list Wire) : list Event :=
  match answers with
  | [] => []
  | ans :: rest =>
      Http req ans ::
      match rest with
      | [] => []
      | _ :: _ => Timer (backoffDelay k) :: schedule req (S k) rest
      end
  end.

(** What the server answers to the [n] calls for [req] that start at call
    number [first]. *)
Definition answersFrom (env : Env) (first n : nat) (req : Request) : list Wire :=
  map (fun j => wire env (first + j) req) (seq 0 n).

(** What the caller of [requestWithRetry] gets when the last attempt was
    answered with [ans]. *)
Definition outcome (policy : StatusPolicy) (ans : Wire) : Res (option Response) :=
  match settle policy ans with
  | Ok r => Ok (Some r)
  | Throw e => Throw e
  end.

(** The request [completeTask] sends for the task [t]. *)
Definition completionRequest (proxy token t : value) : Request :=
  {| verb := POST; url := UrlComplete (task_id t); payload := Some VNull;
     config := configFor proxy token Permissive |}.

(** The server approves with [ans]: a response that the permissive
    validation accepts and whose body has status APPROVED. *)
Definition approves (ans : Wire) : bool :=
  match ans with
  | Answered r => accepts Permissive (status r) && approved r
  | Unreachable _ => false
  end.

(** The calls of the loop over the pending tasks, from call number [first]
    on, when the task number i takes [ns !! i] attempts: each task is
    submitted with its own request, one task after the other, and answered
    by the server. *)
Fixpoint completionAnswers (env : Env) (proxy token : value) (first : nat)
    (pending : list value) (ns : list nat) : list (Request * Wire) :=
  match pending, ns with
  | t :: rest, n :: ns' =>
      map (fun ans => (completionRequest proxy token t, ans))
          (answersFrom env first n (completionRequest proxy token t)) ++
      completionAnswers env proxy token (first + n) rest ns'
  | _, _ => []
  end.

(** The request [getPublicIP] sends. *)
Definition ipRequest (proxy : value) : Request :=
  {| verb := GET; url := UrlIpify; payload := None;
     config := configFor proxy VNull DefaultStatus |}.

(** ** The pending filter as the specification words it *)

(** The completion marker of a task, if it has one: the value of
    [user_completion] when the field is there and holds something. *)
Definition completionMarker (t : value) : option value :=
  match t with
  | VObj m =>
      match m !! "user_completion" with
      | Some v => if nullish v then None else Some v
      | None => None
      end
  | _ => None
  end.

(** A task is eligible for completion iff its completion marker is
    absent. *)
Definition spec_eligible (t : value) : bool :=
  match completionMarker t with
  | None => true
  | Some _ => false
  end.

Definition spec_pendingFilter (tasks : list value) : list value :=
  List.filter spec_eligible tasks.
(** * Properties *)

(** ** Combinators *)

Section Frames.
Context {rt : Runtime} (env : Env) (P : Event -> Prop).

Lemma frames_ret {A} (a : A) : frames P (mret a).
Proof. intros w. split; [done|]. exists []. by rewrite app_nil_r. Qed.

Lemma frames_throw {A} (e : JsError) : frames P (@throw A e).
Proof. intros w. split; [done|]. exists []. by rewrite app_nil_r. Qed.

Lemma frames_lift {A} (r : Res A) : frames P (lift r).
Proof. intros w. split; [done|]. exists []. by rewrite app_nil_r. Qed.

Lemma frames_emit (e : Event) : P e -> frames P (emit e).
Proof. intros He w. split; [done|]. exists [e]. split; [done|]. by constructor. Qed.

Lemma frames_bind {A B} (m : M A) (f : A -> M B) :
  frames P m -> (forall a, frames P (f a)) -> frames P (m ≫= f).
Proof.
  intros Hm Hf w. unfold mbind, M_bind.
  destruct (Hm w) as [Hg (t & Ht & HP)].
  destruct (m w) as [[a|e] w1]; simpl in *; [|eauto].
  destruct (Hf a w1) as [Hg' (t' & Ht' & HP')].
  split; [congruence|].
  exists (t ++ t'). rewrite Ht', Ht, app_assoc. split; [done|]. by apply Forall_app.
Qed.

Lemma frames_try {A} (m : M A) (h : JsError -> M A) :
  frames P m -> (forall e, frames P (h e)) -> frames P (try_catch m h).
Proof.
  intros Hm Hh w. unfold try_catch.
  destruct (Hm w) as [Hg (t & Ht & HP)].
  destruct (m w) as [[a|e] w1]; simpl in *; [eauto|].
  destruct (Hh e w1) as [Hg' (t' & Ht' & HP')].
  split; [congruence|].
  exists (t ++ t'). rewrite Ht', Ht, app_assoc. split; [done|]. by apply Forall_app.
Qed.

Lemma frames_axios v u body cfg :
  (forall req ans, P (Http req ans)) -> frames P (axios env v u body cfg).
Proof.
  intros HP w. split; [done|]. eexists [_]. split; [done|]. by constructor.
Qed.

Lemma frames_fsRead name : frames P (fsRead env name).
Proof.
  intros w. unfold fsRead.
  destruct (readFile env (reads w) name); (split; [done|]); exists [];
    by rewrite app_nil_r.
Qed.

End Frames.

(** Breaks a computation into its parts along [frames]. *)
Ltac frames_step :=
  lazymatch goal with
  | |- frames _ (mbind _ _) => apply frames_bind; [|intros]
  | |- frames _ (mret _) => apply frames_ret
  | |- frames _ (throw _) => apply frames_throw
  | |- frames _ (lift _) => apply frames_lift
  | |- frames _ (try_catch _ _) => apply frames_try; [|intros]
  | |- frames _ (emit _) => apply frames_emit
  | |- frames _ (logger _ _) => apply frames_emit
  | |- frames _ (delay _) => apply frames_emit
  | |- frames _ (printInfo _ _ _) => apply frames_emit
  | |- frames _ (axios _ _ _ _ _) => apply frames_axios
  | |- frames _ (fsRead _ _) => apply frames_fsRead
  | |- frames _ (if ?b then _ else _) => destruct b
  | |- frames _ (match ?x with _ => _ end) => destruct x
  end.

Ltac frames_auto := repeat frames_step; eauto.

(** ** What each function adds to the trace *)

Section Footprint.
Context {rt : Runtime} (env : Env) (P : Event -> Prop).

(** The lemmas of this section hold for every [P] that admits the kinds
    of event the function at hand emits. *)
Hypothesis P_http : forall req ans, P (Http req ans).
Hypothesis P_timer : forall ms, P (Timer ms).
Hypothesis P_spinner : forall op s, P (Spinner op s).
Hypothesis P_tick : P Tick.
Hypothesis P_header : forall title ctx, P (Header title ctx).
Hypothesis P_table : forall tasks, P (Table tasks).
Hypothesis P_warn : forall line, P (Log WARN line).
Hypothesis P_error : forall line, P (Log ERROR line).
Hypothesis P_info : forall line,
  (forall ctx, line <> StartingAccount ctx) -> P (Log INFO line).

Lemma frames_getAxiosConfig proxy token : frames P (getAxiosConfig proxy token).
Proof. unfold getAxiosConfig, newAgent. frames_auto. Qed.

Lemma frames_attempt method u body cfg : frames P (attempt env method u body cfg).
Proof. unfold attempt. frames_auto. Qed.

Lemma frames_requestLoop left : forall i retries backoff method u body cfg ctx,
  frames P (requestLoop env left i retries backoff method u body cfg ctx).
Proof.
  induction left as [|left IH]; intros; simpl.
  - apply frames_ret.
  - apply frames_try; [|intros].
    + apply frames_bind; [apply frames_attempt | intros; apply frames_ret].
    + frames_auto.
Qed.

Lemma frames_requestWithRetry method u body cfg retries backoff ctx :
  frames P (requestWithRetry env method u body cfg retries backoff ctx).
Proof. apply frames_requestLoop. Qed.

Lemma frames_body_prop r k : frames P (body_prop r k).
Proof. apply frames_lift. Qed.

Local Hint Resolve frames_getAxiosConfig frames_requestWithRetry frames_body_prop : core.

Lemma frames_login keypair proxy ctx : frames P (login env keypair proxy ctx).
Proof. unfold login. frames_auto. Qed.

Lemma frames_dailyCheckin token proxy ctx : frames P (dailyCheckin env token proxy ctx).
Proof. unfold dailyCheckin. frames_auto. Qed.

Lemma frames_catalogRequest u token proxy ctx : frames P (catalogRequest env u token proxy ctx).
Proof. unfold catalogRequest. frames_auto. Qed.

Lemma frames_fetchCatalogs urls : forall allTasks token proxy ctx,
  frames P (fetchCatalogs env urls allTasks token proxy ctx).
Proof.
  induction urls as [|u urls IH]; intros; simpl; [apply frames_ret|].
  apply frames_bind; [apply frames_catalogRequest|intros].
  apply frames_bind; [apply frames_body_prop|intros]. apply IH.
Qed.

Lemma frames_fetchActiveTasks token proxy ctx : frames P (fetchActiveTasks env token proxy ctx).
Proof.
  unfold fetchActiveTasks.
  apply frames_bind; [by apply frames_emit|intros].
  apply frames_try; [|intros; frames_auto].
  apply frames_bind; [apply frames_fetchCatalogs|intros]. frames_auto.
Qed.

Lemma frames_completeTask token taskId description proxy ctx :
  frames P (completeTask env token taskId description proxy ctx).
Proof. unfold completeTask. frames_auto. Qed.

Lemma frames_fetchProfileInfo token proxy ctx : frames P (fetchProfileInfo env token proxy ctx).
Proof. unfold fetchProfileInfo. frames_auto. Qed.

Lemma frames_getPublicIP proxy ctx : frames P (getPublicIP env proxy ctx).
Proof. unfold getPublicIP. frames_auto. Qed.

Lemma frames_printProfileInfo a u p ctx : frames P (printProfileInfo a u p ctx).
Proof. unfold printProfileInfo. frames_auto. Qed.

Lemma frames_formatTaskTable tasks ctx : frames P (formatTaskTable tasks ctx).
Proof. unfold formatTaskTable. frames_auto. Qed.

Lemma frames_completeOne t count token proxy ctx :
  frames P (completeOne env t count token proxy ctx).
Proof.
  unfold completeOne.
  apply frames_try; [|intros; frames_auto].
  apply frames_bind; [apply frames_lift|intros].
  apply frames_bind; [apply frames_lift|intros].
  apply frames_bind; [apply frames_completeTask|intros; apply frames_ret].
Qed.

Lemma frames_completeAll pending : forall count token proxy ctx,
  frames P (completeAll env pending count token proxy ctx).
Proof.
  induction pending as [|t pending IH]; intros; simpl; [apply frames_ret|].
  apply frames_bind; [apply frames_completeOne|intros].
  apply frames_bind; [by apply frames_emit|intros].
  apply frames_bind; [by apply frames_emit|intros]. apply IH.
Qed.

Lemma frames_taskPass activeTasks token proxy ctx :
  frames P (taskPass env activeTasks token proxy ctx).
Proof.
  unfold taskPass.
  apply frames_bind; [apply frames_lift|intros pending].
  apply frames_bind; [|intros].
  - destruct (length pending =? 0)%nat.
    + apply frames_emit, P_info; done.
    + apply frames_bind; [apply frames_completeAll|intros].
      apply frames_emit, P_info; done.
  - apply frames_bind; [apply frames_formatTaskTable|intros].
    apply frames_bind; [apply frames_fetchProfileInfo|intros].
    apply frames_bind; [|intros; apply frames_emit, P_info; done].
    destruct a1; [apply frames_printProfileInfo|by apply frames_emit].
Qed.

Lemma frames_session keypair proxy ctx : frames P (session env keypair proxy ctx).
Proof.
  unfold session.
  apply frames_bind; [by apply frames_emit|intros].
  apply frames_bind; [by apply frames_emit, P_info|intros].
  apply frames_bind; [apply frames_getPublicIP|intros].
  apply frames_bind; [by apply frames_emit, P_info|intros].
  apply frames_try; [|intros; by apply frames_emit].
  apply frames_bind; [apply frames_login|intros].
  apply frames_bind; [apply frames_dailyCheckin|intros].
  apply frames_bind; [by apply frames_emit, P_info|intros].
  apply frames_bind; [apply frames_fetchActiveTasks|intros].
  apply frames_taskPass.
Qed.

Lemma frames_readPKs : frames P (readPKs env).
Proof. unfold readPKs. frames_auto. Qed.

Lemma frames_readProxies : frames P (readProxies env).
Proof. unfold readProxies. frames_auto. Qed.

End Footprint.

(** ** The retry loop, one round at a time *)

Section Retry.
Context (env : Env).

Lemma after_after w t1 t2 : after (after w t1) t2 = after w (t1 ++ t2).
Proof. unfold after; simpl. by rewrite app_assoc. Qed.

Lemma after_nil w : after w [] = w.
Proof. destruct w; unfold after; simpl. by rewrite app_nil_r. Qed.

Lemma pause_ms (backoff : Qc) : (backoff / num 1000 * num 1000)%Qc = backoff.
Proof.
  rewrite Qcmult_comm. apply Qcmult_div_r. intros H. discriminate H.
Qed.

(** An attempt either sends one request and settles it, or throws at
    once because the method is not supported. *)
Lemma attempt_eq method u body cfg w :
  attempt env method u body cfg w =
  match request_of method u body cfg with
  | Some req =>
      let ans := wire env (calls w) req in
      (settle (validateStatus cfg) ans, called w req ans)
  | None => (Throw (Error ("Method " ++ method ++ " not supported")%string), w)
  end.
Proof.
  unfold attempt, request_of.
  destruct (String.eqb (toLowerCase method) "get"); [done|].
  by destruct (String.eqb (toLowerCase method) "post").
Qed.

(** One round of the loop of [requestWithRetry]. *)
Lemma requestLoop_round left i retries backoff method u body cfg ctx w :
  requestLoop env (S left) i retries backoff method u body cfg ctx w =
  match attempt env method u body cfg w with
  | (Ok r, w1) => (Ok (Some r), w1)
  | (Throw e, w1) =>
      if (i <? retries - 1)%nat then
        requestLoop env left (S i) retries (backoff * one_and_a_half)%Qc method u body cfg ctx
          (after w1 [Log WARN (Retrying (server_error e) method u (i + 1) retries ctx);
                     Timer backoff])
      else (Throw e, w1)
  end.
Proof.
  simpl. unfold try_catch, mbind, M_bind at 1.
  destruct (attempt env method u body cfg w) as [[r|e] w1]; [done|].
  destruct (i <? retries - 1)%nat; simpl.
  - destruct (server_error e); simpl;
      unfold mbind, M_bind, logger, delay, emit; simpl;
      by rewrite after_after, pause_ms.
  - by rewrite andb_false_r.
Qed.

End Retry.

(** The proofs below reason about [requestLoop] through its equations. *)
#[local] Arguments requestLoop : simpl never.

Section RetryFacts.
Context (env : Env).

Lemma settle_Ok p ans r :
  settle p ans = Ok r -> ans = Answered r /\ accepts p (status r) = true.
Proof.
  destruct ans as [msg|r']; simpl; [done|].
  destruct (accepts p (status r')) eqn:E; [|done].
  by intros [= ->].
Qed.

Lemma request_of_config method u body cfg req :
  request_of method u body cfg = Some req -> config req = cfg.
Proof.
  unfold request_of.
  destruct (String.eqb (toLowerCase method) "get"); [by intros [= <-]|].
  destruct (String.eqb (toLowerCase method) "post"); [by intros [= <-]|done].
Qed.

Lemma backoffDelay_1 : backoffDelay 1 = num 2000.
Proof. apply Qc_is_canon. reflexivity. Qed.

Lemma backoffDelay_2 : backoffDelay 2 = num 3000.
Proof. apply Qc_is_canon. reflexivity. Qed.

Lemma second_backoff : (num 2000 * one_and_a_half)%Qc = num 3000.
Proof. apply Qc_is_canon. reflexivity. Qed.

(** The call counter never goes back. *)
Lemma requestLoop_calls left : forall i retries backoff method u body cfg ctx w,
  (calls w <= calls (requestLoop env left i retries backoff method u body cfg ctx w).2)%nat.
Proof.
  induction left as [|left IH]; intros; [done|].
  rewrite requestLoop_round, attempt_eq.
  destruct (request_of method u body cfg) as [req|]; simpl.
  - destruct (settle _ _); simpl; [lia|].
    destruct (i <? retries - 1)%nat; simpl; [|lia].
    etrans; [|apply IH]. simpl. lia.
  - destruct (i <? retries - 1)%nat; simpl; [|lia].
    etrans; [|apply IH]. simpl. lia.
Qed.

End RetryFacts.


(** ** Running a computation step by step; computations that never throw *)

Section Running.
Context {rt : Runtime} (env : Env).

Lemma safe_ret {A} (a : A) : safe (mret a).
Proof. intros w. by eexists _, _. Qed.

Lemma safe_emit e : safe (emit e).
Proof. intros w. by eexists _, _. Qed.

Lemma safe_bind {A B} (m : M A) (f : A -> M B) :
safe m -> (forall a, safe (f a)) -> safe (m ≫= f).
Proof.
intros Hm Hf w. destruct (Hm w) as (a & w1 & E).
unfold mbind, M_bind. rewrite E. apply Hf.
Qed.

Lemma safe_try {A} (m : M A) (h : JsError -> M A) :
(forall e, safe (h e)) -> safe (try_catch m h).
Proof.
intros Hh w. unfold try_catch.
destruct (m w) as [[a|e] w1]; [by eexists _, _|apply Hh].
Qed.

Lemma getPublicIP_safe proxy ctx : safe (getPublicIP env proxy ctx).
Proof.
apply safe_try. intros e. apply safe_bind; [apply safe_emit|intros; apply safe_ret].
Qed.

Lemma fetchActiveTasks_safe token proxy ctx : safe (fetchActiveTasks env token proxy ctx).
Proof.
apply safe_bind; [apply safe_emit|intros _].
apply safe_try. intros e. apply safe_bind; [apply safe_emit|intros; apply safe_ret].
Qed.

Lemma session_safe keypair proxy ctx : safe (session env keypair proxy ctx).
Proof.
unfold session.
apply safe_bind; [apply safe_emit|intros _].
apply safe_bind; [apply safe_emit|intros _].
apply safe_bind; [apply getPublicIP_safe|intros ip].
apply safe_bind; [apply safe_emit|intros _].
apply safe_try. intros e. apply safe_emit.
Qed.

Lemma processAccount_safe pk index total proxy : safe (processAccount env pk index total proxy).
Proof.
unfold processAccount.
apply safe_bind; [apply safe_emit|intros _].
destruct (decodeKeypair pk); [apply safe_emit|apply session_safe].
Qed.

Lemma bind_emit {B} e (f : unit -> M B) w : (emit e ≫= f) w = f tt (after w [e]).
Proof. done. Qed.

Lemma bind_ok {A B} (m : M A) (f : A -> M B) w a w' :
m w = (Ok a, w') -> (m ≫= f) w = f a w'.
Proof. intros E. unfold mbind, M_bind. by rewrite E. Qed.

Lemma bind_throw {A B} (m : M A) (f : A -> M B) w e w' :
m w = (Throw e, w') -> (m ≫= f) w = (Throw e, w').
Proof. intros E. unfold mbind, M_bind. by rewrite E. Qed.

Lemma try_ok {A} (m : M A) h w a w' :
m w = (Ok a, w') -> try_catch m h w = (Ok a, w').
Proof. intros E. unfold try_catch. by rewrite E. Qed.

Lemma try_throw {A} (m : M A) h w e w' :
m w = (Throw e, w') -> try_catch m h w = h e w'.
Proof. intros E. unfold try_catch. by rewrite E. Qed.

Lemma processAccount_login_throw pk index total proxy keypair w ip wi e wl :
let ctx := accountContext index total in
decodeKeypair pk = inr keypair ->
getPublicIP env proxy ctx (after w (accountOpening keypair ctx)) = (Ok ip, wi) ->
login env keypair proxy ctx (after wi [Log INFO (Field "IP" ip ctx)]) = (Throw e, wl) ->
processAccount env pk index total proxy w =
  (Ok tt, after wl [Log ERROR (ErrorProcessingAccount (message e) ctx)]).
Proof.
intros ctx Hpk Hip Hlogin. unfold processAccount, session. rewrite Hpk.
unfold printInfo, logger. rewrite !bind_emit, !after_after.
erewrite bind_ok by exact Hip. rewrite bind_emit.
erewrite try_throw; [done|]. by erewrite bind_throw.
Qed.
Lemma bind_body_prop {B} r k (f : value -> M B) w :
(body_prop (Some r) k ≫= f) w =
match prop (data r) k with
| Ok v => f v w
| Throw e => (Throw e, w)
end.
Proof. unfold body_prop, lift, mbind, M_bind. simpl. by destruct (prop (data r) k). Qed.

Lemma seconds_5 : (num 5 * num 1000)%Qc = num 5000.
Proof. apply Qc_is_canon. reflexivity. Qed.

Lemma seconds_2 : (num 2 * num 1000)%Qc = num 2000.
Proof. apply Qc_is_canon. reflexivity. Qed.

Lemma seconds_86400 : (num 86400 * num 1000)%Qc = num 86400000.
Proof. apply Qc_is_canon. reflexivity. Qed.

End Running.

(** ** Catalogs and the pending filter *)

Section Catalogs.
Context {rt : Runtime} (env : Env).

Lemma pendingFilter_filter tasks :
Forall (fun t => nullish t = false) tasks ->
pendingFilter tasks = Ok (List.filter marker_absent tasks).
Proof.
induction 1 as [|t tasks Ht _ IH]; [done|].
simpl. rewrite IH.
destruct t as [| | | | | |m]; try done.
simpl. by destruct (m !! "user_completion") as [[]|].
Qed.

Lemma pendingFilter_defined tasks pending :
pendingFilter tasks = Ok pending -> Forall (fun t => nullish t = false) pending.
Proof.
revert pending. induction tasks as [|t tasks IH]; intros pending; simpl.
- intros [= <-]. constructor.
- destruct (prop t "user_completion") as [marker|] eqn:Hp; [|done].
  destruct (pendingFilter tasks) as [kept|]; [|done].
  intros [= <-]. destruct (is_null marker); [|by apply IH].
  constructor; [|by apply IH]. by destruct t.
Qed.

Lemma fetchCatalogs_two token proxy ctx w r1 w1 r2 w2 c1 c2 :
catalogRequest env UrlTasksOnce token proxy ctx w = (Ok (Some r1), w1) ->
catalogRequest env UrlTasksDaily token proxy ctx w1 = (Ok (Some r2), w2) ->
prop (data r1) "data" = Ok c1 ->
prop (data r2) "data" = Ok c2 ->
fetchCatalogs env [UrlTasksOnce; UrlTasksDaily] [] token proxy ctx w =
  (Ok (js_concat (js_concat [] c1) c2), w2).
Proof.
intros H1 H2 Hc1 Hc2. simpl.
erewrite bind_ok by exact H1. rewrite bind_body_prop, Hc1.
erewrite bind_ok by exact H2. rewrite bind_body_prop, Hc2. done.
Qed.

End Catalogs.

(** ** Counting approved responses *)

Section Approvals.
Context {rt : Runtime} (env : Env).

Lemma accepted_app t1 t2 : accepted (t1 ++ t2) = accepted t1 ++ accepted t2.
Proof. apply omap_app. Qed.

Lemma approvals_app t1 t2 : approvals (t1 ++ t2) = (approvals t1 + approvals t2)%nat.
Proof. unfold approvals. by rewrite accepted_app, List.filter_app, length_app. Qed.

Lemma ticks_app t1 t2 : ticks (t1 ++ t2) = (ticks t1 + ticks t2)%nat.
Proof. unfold ticks. by rewrite List.filter_app, length_app. Qed.

Lemma silent_quiet t : Forall silent t -> accepted t = [] /\ ticks t = 0%nat.
Proof.
induction 1 as [|e t He _ [IHa IHt]]; [done|].
destruct e; try done.
Qed.

Lemma silent_approvals t : Forall silent t -> approvals t = 0%nat.
Proof. intros [H _]%silent_quiet. unfold approvals. by rewrite H. Qed.

Lemma silent_ticks t : Forall silent t -> ticks t = 0%nat.
Proof. by intros [_ H]%silent_quiet. Qed.

(** The loop stops at the first response axios accepts: the trace it adds
  holds that response and no other accepted one. *)
Lemma requestLoop_accepted left : forall i retries backoff method u body cfg ctx w,
exists t,
  trace (requestLoop env left i retries backoff method u body cfg ctx w).2 = trace w ++ t /\
  ticks t = 0%nat /\
  accepted t =
    match (requestLoop env left i retries backoff method u body cfg ctx w).1 with
    | Ok (Some r) => [r]
    | _ => []
    end.
Proof.
induction left as [|left IH]; intros.
{ exists []. by rewrite app_nil_r. }
rewrite requestLoop_round, attempt_eq.
destruct (request_of method u body cfg) as [req|] eqn:Hreq; simpl.
- pose proof (request_of_config _ _ _ _ _ Hreq) as Hcfg.
  destruct (settle _ _) as [r|e] eqn:Hs.
  + apply settle_Ok in Hs as [Hs Hacc].
    exists [Http req (wire env (calls w) req)]. rewrite Hs. simpl.
    by rewrite Hcfg, Hacc.
  + assert (accepted [Http req (wire env (calls w) req)] = []) as Hnone.
    { simpl. destruct (wire env (calls w) req) as [|r]; [done|].
      simpl in Hs. rewrite Hcfg. by destruct (accepts _ _). }
    destruct (i <? retries - 1)%nat.
    * edestruct IH as (t & Ht & Hticks & Hacc).
      exists ([Http req (wire env (calls w) req)] ++
              [Log WARN (Retrying (server_error e) method u (i + 1) retries ctx);
               Timer backoff] ++ t).
      rewrite Ht. cbn [trace after called]. rewrite <- !app_assoc.
      split_and!; [reflexivity| |].
      -- by rewrite !ticks_app, Hticks.
      -- by rewrite !accepted_app, Hnone, Hacc.
    * exists [Http req (wire env (calls w) req)]. by rewrite Hnone.
- destruct (i <? retries - 1)%nat.
  + edestruct IH as (t & Ht & Hticks & Hacc).
    exists ([Log WARN (Retrying false method u (i + 1) retries ctx); Timer backoff] ++ t).
    rewrite Ht. cbn [trace after]. rewrite <- !app_assoc.
    split_and!; [reflexivity| |].
    * by rewrite !ticks_app, Hticks.
    * by rewrite !accepted_app, Hacc.
  + exists []. by rewrite app_nil_r.
Qed.

Lemma silent_log lvl line : silent (Log lvl line).
Proof. done. Qed.

Lemma getAxiosConfig_silent proxy token w :
exists t, trace (getAxiosConfig proxy token w).2 = trace w ++ t /\ Forall silent t.
Proof.
destruct (frames_getAxiosConfig silent (silent_log WARN) proxy token w) as [_ H].
exact H.
Qed.

Lemma requestWithRetry_accepted method u body cfg retries backoff ctx w :
exists t,
  trace (requestWithRetry env method u body cfg retries backoff ctx w).2 = trace w ++ t /\
  ticks t = 0%nat /\
  accepted t =
    match (requestWithRetry env method u body cfg retries backoff ctx w).1 with
    | Ok (Some r) => [r]
    | _ => []
    end.
Proof. apply requestLoop_accepted. Qed.

Lemma bind_lift {A B} (r : Res A) (f : A -> M B) w :
(lift r ≫= f) w = match r with Ok a => f a w | Throw e => (Throw e, w) end.
Proof. unfold lift, mbind, M_bind. by destruct r. Qed.

(** A completion adds no tick, and one approved response exactly when it
  reports success. *)
Lemma completeTask_approvals token taskId description proxy ctx w :
exists t,
  trace (completeTask env token taskId description proxy ctx w).2 = trace w ++ t /\
  ticks t = 0%nat /\
  approvals t =
    match (completeTask env token taskId description proxy ctx w).1 with
    | Ok result => if success result then 1%nat else 0%nat
    | Throw _ => 0%nat
    end.
Proof.
unfold completeTask. rewrite bind_lift.
destruct (slice_check taskId) as [[]|e0].
2:{ exists []. by rewrite app_nil_r. }
pose proof (getAxiosConfig_silent proxy token w) as (t0 & Ht0 & Hs0).
pose proof (silent_ticks _ Hs0) as Hk0. pose proof (silent_approvals _ Hs0) as Ha0.
destruct (getAxiosConfig proxy token w) as [[cfg|e1] w0] eqn:Ecfg; simpl in Ht0.
2:{ erewrite bind_throw by exact Ecfg. by exists t0. }
erewrite bind_ok by exact Ecfg. rewrite bind_emit. unfold try_catch.
set (tctx := {| account := account ctx; total := total ctx; task := Some taskId |}).
set (w1 := after w0 [Spinner (OpComplete description) SpinStart]).
pose proof (requestWithRetry_accepted "post" (UrlComplete taskId) VNull
              (permissive cfg) 3 (num 2000) tctx w1) as (t1 & Ht1 & Hk1 & Ha1).
destruct (requestWithRetry env "post" (UrlComplete taskId) VNull
            (permissive cfg) 3 (num 2000) tctx w1) as [[[r|]|e2] w2] eqn:Ereq;
  simpl in Ht1, Ha1.
- erewrite bind_ok by exact Ereq. rewrite bind_body_prop.
  assert (Hr : approvals t1 = if approved r then 1%nat else 0%nat).
  { unfold approvals. rewrite Ha1. simpl. by destruct (approved r). }
  unfold approved in Hr.
  destruct (prop (data r) "status") as [st|e3]; [destruct (str_eq st "APPROVED")|];
    rewrite bind_emit; simpl;
    (eexists (t0 ++ [_] ++ t1 ++ [_]); rewrite Ht1; subst w1; cbn [trace after];
     rewrite Ht0, <- !app_assoc; split_and!; [reflexivity| |]);
    rewrite ?ticks_app, ?approvals_app, ?Hk1, ?Hk0, ?Hr, ?Ha0; done.
- erewrite bind_ok by exact Ereq. unfold body_prop. rewrite bind_lift. simpl.
  assert (Hr : approvals t1 = 0%nat) by (unfold approvals; by rewrite Ha1).
  eexists (t0 ++ [_] ++ t1 ++ [_]); rewrite Ht1; subst w1; cbn [trace after];
    rewrite Ht0, <- !app_assoc; split_and!; [reflexivity| |];
    rewrite ?ticks_app, ?approvals_app, ?Hk1, ?Hk0, ?Hr, ?Ha0; done.
- erewrite bind_throw by exact Ereq.
  rewrite bind_emit. simpl.
  assert (Hr : approvals t1 = 0%nat) by (unfold approvals; by rewrite Ha1).
  eexists (t0 ++ [_] ++ t1 ++ [_]); rewrite Ht1; subst w1; cbn [trace after];
    rewrite Ht0, <- !app_assoc; split_and!; [reflexivity| |];
    rewrite ?ticks_app, ?approvals_app, ?Hk1, ?Hk0, ?Hr, ?Ha0; done.
Qed.

Lemma prop_defined t k : nullish t = false -> exists v, prop t k = Ok v.
Proof. destruct t; try done; by eexists. Qed.

(** One pending task: the count goes up by the number of approved
  responses, which is at most one, and nothing is thrown. *)
Lemma completeOne_count t count token proxy ctx w :
nullish t = false ->
exists ev w',
  completeOne env t count token proxy ctx w = (Ok (count + approvals ev)%nat, w') /\
  trace w' = trace w ++ ev /\ ticks ev = 0%nat /\ (approvals ev <= 1)%nat.
Proof.
intros Ht. unfold completeOne, try_catch.
destruct (prop_defined t "id" Ht) as [id Hid].
destruct (prop_defined t "description" Ht) as [d Hd].
rewrite bind_lift, Hid, bind_lift, Hd.
pose proof (completeTask_approvals token id (js_or d (VStr "Unknown Task")) proxy ctx w)
  as (ev & Hev & Hk & Ha).
destruct (completeTask env token id (js_or d (VStr "Unknown Task")) proxy ctx w)
  as [[result|e] w1] eqn:E; simpl in Hev, Ha.
- erewrite bind_ok by exact E. exists ev, w1. simpl. rewrite Ha.
  destruct (success result); split_and!; try done; try lia.
  + do 2 f_equal. lia.
  + do 2 f_equal. lia.
- erewrite bind_throw by exact E. rewrite bind_lift. unfold logger.
  rewrite bind_emit. simpl.
  exists (ev ++ [Log ERROR (ErrorCompletingTask id (message e) ctx)]), 
    (after w1 [Log ERROR (ErrorCompletingTask id (message e) ctx)]).
  rewrite approvals_app, ticks_app, Ha, Hk. simpl. rewrite Hev, <- app_assoc.
  split_and!; try done.
  + by rewrite Nat.add_0_r.
  + unfold approvals. simpl. lia.
Qed.

End Approvals.

(** ** Accounts, one after the other *)

Section Accounts.
Context {rt : Runtime} (env : Env).

Lemma starts_app t1 t2 : starts (t1 ++ t2) = starts t1 ++ starts t2.
Proof. apply omap_app. Qed.

Lemma inner_starts t : Forall inner t -> starts t = [].
Proof.
induction 1 as [|e t He _ IH]; [done|].
destruct e as [| |[] []| | | |]; try done.
Qed.

Lemma inner_info line : (forall ctx, line <> StartingAccount ctx) -> inner (Log INFO line).
Proof. intros H. destruct line; try done. by destruct (H ctx). Qed.

Lemma frames_session_inner keypair proxy ctx : frames inner (session env keypair proxy ctx).
Proof. apply frames_session; try done. apply inner_info. Qed.

(** An account is opened once, never throws and leaves the configuration
  alone, whatever happens while it is processed. *)
Lemma processAccount_contained pk index total proxy w :
exists w' t,
  processAccount env pk index total proxy w = (Ok tt, w') /\
  trace w' = trace w ++ t /\
  starts t = [accountContext index total] /\
  globals w' = globals w.
Proof.
destruct (processAccount_safe env pk index total proxy w) as ([] & w' & E).
exists w'. revert E. unfold processAccount. cbv zeta. unfold logger. rewrite !bind_emit.
destruct (decodeKeypair pk) as [msg|keypair]; intros E.
- injection E as <-. eexists [_; _]. simpl. rewrite <- app_assoc. done.
- destruct (frames_session_inner keypair proxy
              {| account := index; total := total; task := None |}
              (after w [Log INFO (StartingAccount {| account := index; total := total; task := None |})]))
    as [Hg (t & Ht & Hin)].
  rewrite E in Hg, Ht. simpl in Hg, Ht.
  exists ([Log INFO (StartingAccount (accountContext index total))] ++ t).
  split_and!; [done| |by rewrite starts_app, (inner_starts _ Hin)|done].
  by rewrite Ht, <- app_assoc.
Qed.

Lemma accounts_contained todo : forall i total w,
exists w' t,
  accounts env todo i total w = (Ok tt, w') /\
  trace w' = trace w ++ t /\
  starts t = map (fun k => accountContext k total) (seq i (length todo)) /\
  globals w' = globals w.
Proof.
induction todo as [|pk todo IH]; intros i total w.
{ exists w, []. by rewrite app_nil_r. }
destruct (processAccount_contained pk i total
            (assignedProxy (globalUseProxy w) (globalProxies w) i) w)
  as (w1 & t1 & E1 & Ht1 & Hs1 & Hg1).
simpl. unfold mbind at 1, M_bind at 1. unfold try_catch. rewrite E1.
unfold delay. rewrite bind_emit.
destruct (IH (S i) total (after w1 [Timer (num 5 * num 1000)])) as (w2 & t2 & E2 & Ht2 & Hs2 & Hg2).
exists w2, (t1 ++ [Timer (num 5 * num 1000)] ++ t2).
split_and!; [done| | |].
- rewrite Ht2. simpl. by rewrite Ht1, <- !app_assoc.
- by rewrite !starts_app, Hs1, Hs2.
- by rewrite Hg2.
Qed.

Lemma readPKs_contained w :
exists pks w' line,
  readPKs env w = (Ok pks, w') /\ trace w' = trace w ++ [line] /\
  inner line /\ silent line /\ globals w' = globals w /\ calls w' = calls w.
Proof.
unfold readPKs, try_catch, fsRead. unfold mbind at 1, M_bind at 1.
destruct (readFile env (reads w) "pk.txt") as [msg|content]; simpl.
- by eexists _, _, _.
- by eexists _, _, _.
Qed.

Lemma runCycle_contained w :
exists w', runCycle env w = (Ok tt, w') /\ globals w' = globals w.
Proof.
destruct (readPKs_contained w) as (pks & w1 & line & E & _ & _ & _ & Hg & _).
unfold runCycle. erewrite bind_ok by exact E.
destruct (length pks =? 0)%nat.
- by eexists.
- destruct (accounts_contained pks 0 (length pks) w1) as (w' & t & E' & _ & _ & Hg').
  exists w'. split; [done|congruence].
Qed.

Lemma cycles_contained n : forall w,
exists w', cycles env n w = (Ok tt, w') /\ globals w' = globals w.
Proof.
induction n as [|n IH]; intros w; [by eexists|].
destruct (runCycle_contained w) as (w1 & E & Hg).
simpl. erewrite bind_ok by exact E. unfold logger, delay. rewrite !bind_emit.
destruct (IH (after (after w1 [Log INFO CycleCompleted]) [Timer (num 86400 * num 1000)]))
  as (w' & E' & Hg').
exists w'. split; [done|]. by rewrite Hg'.
Qed.

End Accounts.

(** ** Configuration *)

Section Configuration.
Context {rt : Runtime} (env : Env).

Lemma readPKs_line w :
exists pks w',
  readPKs env w = (Ok pks, w') /\
  (trace w' = trace w ++ [Log INFO (LoadedKeys (length pks))] \/
   exists msg, pks = [] /\ trace w' = trace w ++ [Log ERROR (FailedReadPk msg)]).
Proof.
unfold readPKs, try_catch, fsRead. unfold mbind at 1, M_bind at 1.
destruct (readFile env (reads w) "pk.txt") as [msg|content]; simpl.
- eexists _, _. split; [done|]. right. by exists msg.
- eexists _, _. split; [done|]. by left.
Qed.

Lemma assignedProxy_enabled proxies i :
proxies <> [] ->
exists p, proxies !! (i mod length proxies)%nat = Some p /\
          assignedProxy true proxies i = VStr p.
Proof.
intros Hne. unfold assignedProxy.
destruct proxies as [|p0 proxies]; [done|].
destruct (lookup_lt_is_Some_2 (p0 :: proxies) (i mod length (p0 :: proxies))%nat) as [p Hp].
{ apply Nat.mod_upper_bound. done. }
exists p. split; [done|]. simpl length in *. by rewrite Hp.
Qed.

Lemma readProxies_contained w :
exists proxies w', readProxies env w = (Ok proxies, w') /\ globals w' = globals w.
Proof.
unfold readProxies, try_catch, fsRead. unfold mbind at 1, M_bind at 1.
destruct (readFile env (reads w) "proxy.txt") as [msg|content]; simpl.
- by eexists _, _.
- unfold mbind at 1, M_bind at 1.
  destruct (length (entries content) =? 0)%nat; by eexists _, _.
Qed.

(** The invariant on the two global variables. *)
Lemma initializeConfig_globals w :
let w' := (initializeConfig env w).2 in
(globalUseProxy w' = true -> globalProxies w' <> []) \/ globals w' = globals w.
Proof.
unfold initializeConfig.
destruct (String.eqb (toLowerCase (trim (answer env))) "y"); [|by right].
left.
set (w1 := {| globalUseProxy := true; globalProxies := globalProxies w;
              calls := calls w; reads := reads w; trace := trace w |}).
destruct (readProxies_contained w1) as (proxies & w2 & E & _).
erewrite (bind_ok (setUseProxy true)) by reflexivity.
erewrite bind_ok by exact E.
erewrite (bind_ok (setProxies proxies)) by reflexivity.
destruct proxies as [|p proxies]; simpl; [done|]. by intros _.
Qed.

Lemma assignedProxy_defined useProxy proxies i :
(useProxy = true -> proxies <> []) ->
assignedProxy useProxy proxies i <> VUndef /\
(useProxy = true ->
 exists p, proxies !! (i mod length proxies)%nat = Some p /\
           assignedProxy useProxy proxies i = VStr p).
Proof.
intros Hinv. destruct useProxy; [|done].
destruct (assignedProxy_enabled proxies i (Hinv eq_refl)) as (p & Hp & E).
rewrite E. split; [done|]. intros _. by exists p.
Qed.

End Configuration.

(** ** The attempts of a request, one by one *)

Section Run.
Context (env : Env).

(** The three attempts of [requestWithRetry], one by one. *)
Lemma requestWithRetry_run method u body cfg ctx w req :
  request_of method u body cfg = Some req ->
  let out := requestWithRetry env method u body cfg 3 (num 2000) ctx w in
  exists n t,
    (1 <= n <= 3)%nat /\
    trace out.2 = trace w ++ t /\
    calls out.2 = (calls w + n)%nat /\
    https t = map (fun ans => (req, ans)) (answersFrom env (calls w) n req) /\
    steps t = schedule req 1 (answersFrom env (calls w) n req) /\
    Forall (fun ans => exists e, settle (validateStatus cfg) ans = Throw e)
           (take (n - 1) (answersFrom env (calls w) n req)) /\
    out.1 = outcome (validateStatus cfg) (wire env (calls w + (n - 1)) req) /\
    (forall e, out.1 = Throw e -> n = 3%nat).
Proof.
  intros Hreq out. subst out. unfold requestWithRetry, answersFrom, outcome.
  pose proof backoffDelay_1 as D1. pose proof backoffDelay_2 as D2.
  pose proof second_backoff as D3.
  rewrite requestLoop_round, attempt_eq, Hreq. simpl.
  set (a1 := wire env (calls w) req).
  destruct (settle _ a1) as [r1|e1] eqn:H1.
  { exists 1%nat, [Http req a1]. simpl. rewrite ?Nat.add_0_r. fold a1. rewrite H1.
    split_and!; [lia|lia|done|lia|done|done|constructor|done|done]. }
  rewrite requestLoop_round, attempt_eq, Hreq. simpl.
  set (a2 := wire env (S (calls w)) req).
  destruct (settle _ a2) as [r2|e2] eqn:H2.
  { exists 2%nat, [Http req a1; Log WARN (Retrying (server_error e1) method u 1 3 ctx);
                   Timer (num 2000); Http req a2].
    simpl. rewrite ?Nat.add_0_r, ?Nat.add_1_r. fold a1 a2. rewrite H2, D1.
    split_and!; [lia|lia|by rewrite <- !app_assoc|lia|done|done| |done|done].
    constructor; [by eexists|constructor]. }
  rewrite requestLoop_round, attempt_eq, Hreq. simpl.
  set (a3 := wire env (S (S (calls w))) req).
  exists 3%nat, [Http req a1; Log WARN (Retrying (server_error e1) method u 1 3 ctx);
                 Timer (num 2000); Http req a2;
                 Log WARN (Retrying (server_error e2) method u 2 3 ctx);
                 Timer (num 2000 * one_and_a_half); Http req a3].
  simpl. rewrite ?Nat.add_0_r, ?Nat.add_1_r.
  replace (calls w + 2)%nat with (S (S (calls w))) by lia. fold a1 a2 a3.
  rewrite D1, D2, D3.
  assert (Hp : Forall (fun ans => exists e, settle (validateStatus cfg) ans = Throw e) [a1; a2]).
  { constructor; [by eexists|]. constructor; [by eexists|constructor]. }
  destruct (settle _ a3) as [r3|e3] eqn:H3; simpl;
    (split_and!; [lia|lia|by rewrite <- !app_assoc|lia|done|done|done|done|done]).
Qed.

Lemma requestWithRetry_unsupported method u body cfg ctx w :
  request_of method u body cfg = None ->
  requestWithRetry env method u body cfg 3 (num 2000) ctx w =
    (Throw (Error ("Method " ++ method ++ " not supported")%string),
     after w [Log WARN (Retrying false method u 1 3 ctx); Timer (backoffDelay 1);
              Log WARN (Retrying false method u 2 3 ctx); Timer (backoffDelay 2)]).
Proof.
  intros Hreq. unfold requestWithRetry.
  rewrite backoffDelay_1, backoffDelay_2.
  rewrite requestLoop_round, attempt_eq, Hreq. simpl.
  rewrite requestLoop_round, attempt_eq, Hreq. simpl.
  rewrite requestLoop_round, attempt_eq, Hreq. simpl.
  by rewrite !after_after, second_backoff.
Qed.

End Run.

(** ** The calls of a completion *)

Section Completion.
Context {rt : Runtime} (env : Env).

Lemma https_app t1 t2 : https (t1 ++ t2) = https t1 ++ https t2.
Proof. unfold https. by rewrite omap_app. Qed.

Lemma silent_https t : Forall silent t -> https t = [].
Proof. induction 1 as [|e t He _ IH]; [done|]. by destruct e. Qed.

Lemma getAxiosConfig_built proxy token w cfg w' :
  getAxiosConfig proxy token w = (Ok cfg, w') ->
  cfg = configFor proxy token DefaultStatus /\ calls w' = calls w /\
  exists t, trace w' = trace w ++ t /\ Forall silent t.
Proof.
  intros E. pose proof (getAxiosConfig_silent proxy token w) as Hs. rewrite E in Hs.
  split_and!; [| |done]; revert E;
    unfold getAxiosConfig, configFor, agentOf, newAgent, httpScheme, socksScheme;
    (destruct (truthy proxy) eqn:Hp; [|intros [= <- <-]; by destruct proxy]);
    (destruct proxy as [| |b|q|p|l|m]; try done);
    (destruct (String.prefix "http://" p || String.prefix "https://" p);
       [destruct (urlError p); [done|]; by intros [= <- <-]|]);
    (destruct (String.prefix "socks4://" p || String.prefix "socks5://" p);
       [destruct (urlError p); [done|]; by intros [= <- <-]|]);
    by intros [= <- <-].
Qed.

Lemma outcome_approves r0 (ans : Wire) :
  settle Permissive ans = Ok r0 -> approves ans = approved r0.
Proof. intros H. apply settle_Ok in H as [-> Ha]. unfold approves. by rewrite Ha. Qed.

Lemma outcome_rejects e (ans : Wire) :
  settle Permissive ans = Throw e -> approves ans = false.
Proof.
  destruct ans as [msg|r]; [done|]. unfold settle, approves.
  by destruct (accepts Permissive (status r)).
Qed.

Lemma completeTask_run token taskId description proxy ctx w :
  slice_check taskId = Ok tt ->
  safe (getAxiosConfig proxy token) ->
  let req := {| verb := POST; url := UrlComplete taskId; payload := Some VNull;
                config := configFor proxy token Permissive |} in
  exists n ev result w',
    (1 <= n <= 3)%nat /\
    completeTask env token taskId description proxy ctx w = (Ok result, w') /\
    trace w' = trace w ++ ev /\
    calls w' = (calls w + n)%nat /\
    https ev = map (fun ans => (req, ans)) (answersFrom env (calls w) n req) /\
    success result = approves (wire env (calls w + (n - 1)) req).
Proof.
  intros Hs Hc req. unfold completeTask. rewrite bind_lift, Hs. cbv zeta.
  destruct (Hc w) as (cfg & w0 & Ecfg).
  destruct (getAxiosConfig_built _ _ _ _ _ Ecfg) as (-> & Hcalls & t0 & Ht0 & Hsil).
  erewrite bind_ok by exact Ecfg. rewrite bind_emit. unfold try_catch.
  set (tctx := {| account := account ctx; total := total ctx; task := Some taskId |}).
  set (w1 := after w0 [Spinner (OpComplete description) SpinStart]).
  destruct (requestWithRetry_run env "post" (UrlComplete taskId) VNull
              (permissive (configFor proxy token DefaultStatus)) tctx w1 req eq_refl)
    as (n & t & Hn & Ht & Hk & Hh & _ & _ & Hout & _).
  assert (Hw1 : calls w1 = calls w) by (subst w1; simpl; lia).
  rewrite Hw1 in *.
  change (validateStatus (permissive (configFor proxy token DefaultStatus))) with Permissive in Hout.
  unfold outcome in Hout.
  destruct (requestWithRetry env "post" (UrlComplete taskId) VNull
              (permissive (configFor proxy token DefaultStatus)) 3 (num 2000) tctx w1)
    as [[resp|e] w2] eqn:Ereq; simpl in Ht, Hk, Hout;
    destruct (settle Permissive (wire env (calls w + (n - 1)) req)) as [r0|e0] eqn:Hlast;
    try done.
  - injection Hout as ->.
    erewrite bind_ok by exact Ereq. rewrite bind_body_prop.
    exists n. rewrite (outcome_approves _ _ Hlast). unfold approved.
    destruct (prop (data r0) "status") as [st|e3]; [destruct (str_eq st "APPROVED")|];
      rewrite bind_emit; simpl;
      (eexists (t0 ++ [Spinner (OpComplete description) SpinStart] ++ t ++ [_]), _, _;
       split_and!; [lia|lia|reflexivity| | | |];
       [simpl; rewrite Ht; subst w1; simpl; by rewrite Ht0, <- !app_assoc
       |simpl; lia
       |rewrite !https_app, (silent_https _ Hsil), Hh; simpl; by rewrite app_nil_r
       |done]).
  - injection Hout as ->.
    erewrite bind_throw by exact Ereq. rewrite bind_emit. simpl.
    exists n. rewrite (outcome_rejects _ _ Hlast).
    eexists (t0 ++ [Spinner (OpComplete description) SpinStart] ++ t ++ [_]), _, _.
    split_and!; [lia|lia|reflexivity| | | |].
    + simpl. rewrite Ht. subst w1. simpl. by rewrite Ht0, <- !app_assoc.
    + simpl. lia.
    + rewrite !https_app, (silent_https _ Hsil), Hh. simpl. by rewrite app_nil_r.
    + done.
Qed.

Lemma completeOne_run t count token proxy ctx w :
  nullish t = false ->
  slice_check (task_id t) = Ok tt ->
  safe (getAxiosConfig proxy token) ->
  let req := completionRequest proxy token t in
  exists n ev w',
    (1 <= n <= 3)%nat /\
    completeOne env t count token proxy ctx w = (Ok (count + approvals ev)%nat, w') /\
    trace w' = trace w ++ ev /\
    calls w' = (calls w + n)%nat /\
    https ev = map (fun ans => (req, ans)) (answersFrom env (calls w) n req) /\
    ticks ev = 0%nat /\
    approvals ev = (if approves (wire env (calls w + (n - 1)) req) then 1 else 0)%nat.
Proof.
  intros Ht Hs Hc req.
  destruct (completeOne_count env t count token proxy ctx w Ht) as (ev & w' & E & Htr & Hk & _).
  pose proof E as E0. revert E. unfold completeOne, try_catch.
  destruct (prop_defined t "id" Ht) as [id Hid].
  destruct (prop_defined t "description" Ht) as [d Hd].
  assert (Hreq : req = {| verb := POST; url := UrlComplete id; payload := Some VNull;
                          config := configFor proxy token Permissive |}).
  { subst req. unfold completionRequest, task_id. by rewrite Hid. }
  unfold task_id in Hs. rewrite Hid in Hs.
  rewrite bind_lift, Hid, bind_lift, Hd.
  destruct (completeTask_run token id (js_or d (VStr "Unknown Task")) proxy ctx w Hs Hc)
    as (n & ev' & result & w'' & Hn & E' & Htr' & Hcalls & Hh & Hsucc).
  rewrite <- Hreq in Hh, Hsucc.
  erewrite bind_ok by exact E'. simpl. intros E. injection E as E1 E2. subst w''.
  assert (ev' = ev) as -> by (rewrite Htr in Htr'; by apply app_inv_head in Htr').
  exists n, ev, w'. split_and!; try done; try lia.
  - by rewrite E1.
  - rewrite Hsucc in E1. destruct (approves _); simpl in E1; lia.
Qed.

Lemma completeAll_run pending : forall count token proxy ctx w,
  Forall (fun t => nullish t = false /\ slice_check (task_id t) = Ok tt) pending ->
  safe (getAxiosConfig proxy token) ->
  exists ns ev w',
    completeAll env pending count token proxy ctx w = (Ok (count + approvals ev)%nat, w') /\
    trace w' = trace w ++ ev /\
    ticks ev = length pending /\
    length ns = length pending /\
    Forall (fun n => (1 <= n <= 3)%nat) ns /\
    calls w' = (calls w + sum_list ns)%nat /\
    https ev = completionAnswers env proxy token (calls w) pending ns.
Proof.
  induction pending as [|t pending IH]; intros count token proxy ctx w Hp Hc.
  { exists [], [], w. simpl. rewrite app_nil_r. split_and!; try done; try lia.
    unfold approvals. simpl. by rewrite Nat.add_0_r. }
  apply Forall_cons in Hp as [[Ht Hs] Hp].
  destruct (completeOne_run t count token proxy ctx w Ht Hs Hc)
    as (n & ev1 & w1 & Hn & E1 & Htr1 & Hc1 & Hh1 & Hk1 & _).
  simpl. erewrite bind_ok by exact E1. unfold delay. rewrite !bind_emit, after_after.
  edestruct (IH (count + approvals ev1)%nat token proxy ctx)
    as (ns & ev2 & w2 & E2 & Htr2 & Hk2 & Hl2 & Hn2 & Hc2 & Hh2); [exact Hp|exact Hc|].
  rewrite E2.
  exists (n :: ns), (ev1 ++ [Tick; Timer (num 2 * num 1000)] ++ ev2), w2.
  rewrite !approvals_app, !ticks_app, !https_app, Hk1, Hk2, Htr2, Hh1, Hh2, Hc2.
  cbn [trace after calls]. rewrite Htr1, Hc1, <- !app_assoc.
  split_and!; try done.
  - replace (approvals [Tick; Timer (num 2 * num 1000)]) with 0%nat by reflexivity.
    do 2 f_equal. lia.
  - simpl. lia.
  - by constructor.
  - simpl. lia.
Qed.

End Completion.

Lemma marker_absent_null (t : value) :
  marker_absent t = true <-> exists m, t = VObj m /\ m !! "user_completion" = Some VNull.
Proof.
  split.
  - destruct t as [| | | | | |m]; try done. simpl.
    destruct (m !! "user_completion") as [[]|] eqn:E; try done. by exists m.
  - intros (m & -> & E). simpl. by rewrite E.
Qed.

(** * The claims *)


(** ** The request client *)

(** C1, as amended. The policy retries after every attempt that throws while
    attempts remain, whatever the error: a transport failure, a status of 500
    or more, any other status that status validation rejects (404 under the
    default validation among them), or an unsupported method. Only a response
    that status validation accepts ends the policy at once; under the
    permissive validation a 404 is such a response. *)
Theorem retry_on_every_error env method u body cfg left i retries backoff ctx w :
  (* one round of the loop *)
  requestLoop env (S left) i retries backoff method u body cfg ctx w =
    match attempt env method u body cfg w with
    | (Ok r, w1) => (Ok (Some r), w1)
    | (Throw e, w1) =>
        if (i <? retries - 1)%nat then
          requestLoop env left (S i) retries (backoff * one_and_a_half)%Qc method u body cfg ctx
            (after w1 [Log WARN (Retrying (server_error e) method u (i + 1) retries ctx);
                       Timer backoff])
        else (Throw e, w1)
    end
  (* a first call that fails in any way is followed by a second one *)
  /\ (forall req e,
        request_of method u body cfg = Some req ->
        settle (validateStatus cfg) (wire env (calls w) req) = Throw e ->
        (1 < retries)%nat ->
        (calls w + 2 <= calls (requestWithRetry env method u body cfg retries backoff ctx w).2)%nat)
  (* an accepted response is returned without another call *)
  /\ (forall req r,
        request_of method u body cfg = Some req ->
        settle (validateStatus cfg) (wire env (calls w) req) = Ok r ->
        requestWithRetry env method u body cfg (S left) backoff ctx w =
          (Ok (Some r), called w req (Answered r)))
  (* where a 404 falls *)
  /\ (forall d, settle DefaultStatus (Answered {| status := 404; data := d |}) =
                Throw {| message := "Request failed with status code 404";
                         response := Some {| status := 404; data := d |} |})
  /\ (forall d, settle Permissive (Answered {| status := 404; data := d |}) =
                Ok {| status := 404; data := d |}).
Proof.
  split_and!.
  - apply requestLoop_round.
  - intros req e Hreq Hs Hr. unfold requestWithRetry.
    destruct retries as [|[|n]]; [lia|lia|].
    rewrite requestLoop_round, attempt_eq, Hreq. simpl. rewrite Hs. simpl.
    rewrite requestLoop_round, attempt_eq, Hreq. simpl.
    destruct (settle _ (wire env (S (calls w)) req)); simpl; [lia|].
    destruct n; simpl; [lia|].
    etrans; [|apply requestLoop_calls]. simpl. lia.
  - intros req r Hreq Hs. unfold requestWithRetry.
    rewrite requestLoop_round, attempt_eq, Hreq. simpl. rewrite Hs.
    by apply settle_Ok in Hs as [-> _].
  - done.
  - done.
Qed.

(** The amended statement at work: the first answer is a 404, the validation
    is the default one, and a second call follows. *)
Lemma retry_on_every_error_witness :
  (calls Demo.w0 + 2 <=
   calls (requestWithRetry Demo.env404 "get" UrlMe VNull Demo.plain 3 (num 2000)
            Demo.ctx0 Demo.w0).2)%nat.
Proof.
  eapply (proj1 (proj2 (retry_on_every_error Demo.env404 "get" UrlMe VNull Demo.plain
                          2 0 3 (num 2000) Demo.ctx0 Demo.w0))).
  - reflexivity.
  - reflexivity.
  - lia.
Defined.

(** C1 as the specification states it fails: a server that answers 404 to a
    GET under the default status validation is called three times, with both
    back-off pauses in between. *)
Lemma retry_404_counterexample :
  let w' := (requestWithRetry Demo.env404 "get" UrlMe VNull Demo.plain 3 (num 2000)
               Demo.ctx0 Demo.w0).2 in
  calls w' = 3%nat /\
  length (https (trace w')) = 3%nat /\
  timers (trace w') = [num 2000; num 3000] /\
  trace w' !! 1%nat = Some (Log WARN (Retrying false "get" UrlMe 1 3 Demo.ctx0)).
Proof. vm_compute. done. Qed.

(** C2. With the three attempts and the 2000 ms initial back-off every caller
    asks for, the client makes between one and three calls, all of them the
    same request, answered by the server in turn. Calls and pauses
    alternate: the call number k + 1 (the retry number k) comes after a
    pause of 2000 * 1.5^(k-1) ms that follows the call number k, so 2000 ms
    before the first retry and 3000 ms before the second, and no pause
    follows the last call. Every call but the last failed; the caller gets
    what the last call gave, a response or its error; an error is thrown
    only after three calls; and the client never returns without a
    response. A method the client does not support fails three times
    without a call, with the same two pauses, and the error is thrown. *)
Theorem retry_policy_bounds env method u body cfg ctx w :
  let out := requestWithRetry env method u body cfg 3 (num 2000) ctx w in
  backoffDelay 1 = num 2000 /\ backoffDelay 2 = num 3000 /\
  out.1 <> Ok None /\
  match request_of method u body cfg with
  | Some req =>
      exists n t,
        (1 <= n <= 3)%nat /\
        trace out.2 = trace w ++ t /\
        calls out.2 = (calls w + n)%nat /\
        https t = map (fun ans => (req, ans)) (answersFrom env (calls w) n req) /\
        steps t = schedule req 1 (answersFrom env (calls w) n req) /\
        Forall (fun ans => exists e, settle (validateStatus cfg) ans = Throw e)
               (take (n - 1) (answersFrom env (calls w) n req)) /\
        out.1 = outcome (validateStatus cfg) (wire env (calls w + (n - 1)) req) /\
        (n = 3%nat \/ exists resp, out.1 = Ok (Some resp))
  | None =>
      out = (Throw (Error ("Method " ++ method ++ " not supported")%string),
             after w [Log WARN (Retrying false method u 1 3 ctx); Timer (backoffDelay 1);
                      Log WARN (Retrying false method u 2 3 ctx); Timer (backoffDelay 2)])
  end.
Proof.
  intros out. subst out.
  split_and!; [apply backoffDelay_1|apply backoffDelay_2| |].
  - destruct (request_of method u body cfg) as [req|] eqn:Hreq.
    + destruct (requestWithRetry_run env method u body cfg ctx w req Hreq)
        as (n & t & _ & _ & _ & _ & _ & _ & Hout & _).
      simpl in Hout. rewrite Hout. unfold outcome. by destruct (settle _ _).
    + by rewrite (requestWithRetry_unsupported env method u body cfg ctx w Hreq).
  - destruct (request_of method u body cfg) as [req|] eqn:Hreq.
    + destruct (requestWithRetry_run env method u body cfg ctx w req Hreq)
        as (n & t & Hn & Ht & Hc & Hh & Hs & Hf & Hout & Hlast).
      exists n, t. split_and!; try done; try lia.
      simpl in Hout, Hlast.
      destruct (requestWithRetry env method u body cfg 3 (num 2000) ctx w).1
        as [[resp|]|e] eqn:E.
      * right. by exists resp.
      * revert Hout. unfold outcome. by destruct (settle _ _).
      * left. by apply (Hlast e).
    + apply requestWithRetry_unsupported, Hreq.
Qed.

(** A server that always answers 404, under the default validation: three
    calls, with the pause of 2000 ms between the first two and the pause of
    3000 ms between the last two. *)
Example retry_schedule_404 :
  let t := trace (requestWithRetry Demo.env404 "get" UrlMe VNull Demo.plain 3 (num 2000)
                    Demo.ctx0 Demo.w0).2 in
  let req := {| verb := GET; url := UrlMe; payload := None; config := Demo.plain |} in
  let ans := Answered {| status := 404; data := VNull |} in
  steps t = [Http req ans; Timer (num 2000); Http req ans; Timer (num 3000); Http req ans].
Proof. vm_compute. done. Qed.

(** ** Authentication *)

(** C3. Whatever response the login request returns: a response that carries
    a token makes [login] return that token at once; one that carries no
    token but a nonce makes it sign the nonce with the secret key of the
    account, send the base64 of the detached signature with the wallet
    address to the verify endpoint, and return the token of that answer; one
    that carries neither makes it fail. A login that fails ends the
    processing of that account only: [processAccount] logs the error and
    returns, and the loop of [runCycle] goes on with the next key. *)
Theorem login_protocol {rt : Runtime} (env : Env) :
  (forall keypair proxy ctx w cfg w0 r w1,
     getAxiosConfig proxy VNull w = (Ok cfg, w0) ->
     requestWithRetry env "post" UrlLogin (loginPayload (address keypair)) cfg 3 (num 2000) ctx
       (after w0 [Spinner OpLogin SpinStart]) = (Ok (Some r), w1) ->
     (* a token: returned at once *)
     (truthy (carried r "token") = true ->
        login env keypair proxy ctx w =
          (Ok (carried r "token"), after w1 [Spinner OpLogin SpinSucceed]))
     (* no token but a nonce: sign it, post the signature, return the
        token of that answer *)
     /\ (truthy (carried r "token") = false -> truthy (carried r "nonce") = true ->
         let nonce := carried r "nonce" in
         let signature := signDetached (encodeText nonce) (secretKey keypair) in
         prop (verifyPayload keypair nonce) "signature" = Ok (VStr (toBase64 signature))
         /\ prop (verifyPayload keypair nonce) "wallet_address" = Ok (VStr (address keypair))
         /\ request_of "post" UrlVerify (verifyPayload keypair nonce) cfg =
              Some {| verb := POST; url := UrlVerify;
                      payload := Some (verifyPayload keypair nonce); config := cfg |}
         /\ login env keypair proxy ctx w =
            match requestWithRetry env "post" UrlVerify (verifyPayload keypair nonce) cfg
                    3 (num 2000) ctx w1 with
            | (Ok verifyResponse, w2) =>
                match body_prop verifyResponse "token" (after w2 [Spinner OpLogin SpinSucceed]) with
                | (Ok token, w3) => (Ok token, w3)
                | (Throw e, w3) => loginFailure e w3
                end
            | (Throw e, w2) => loginFailure e w2
            end)
     (* neither: the login fails, without another request *)
     /\ (truthy (carried r "token") = false -> truthy (carried r "nonce") = false ->
         exists e, login env keypair proxy ctx w = loginFailure e w1))
  (* a login that fails ends that account only: processAccount logs the
     error and returns, and the loop of runCycle goes on to the next key *)
  /\ (forall pk rest index total keypair w ip wi e wl,
        let ctx := accountContext index total in
        let proxy := assignedProxy (globalUseProxy w) (globalProxies w) index in
        decodeKeypair pk = inr keypair ->
        getPublicIP env proxy ctx (after w (accountOpening keypair ctx)) = (Ok ip, wi) ->
        login env keypair proxy ctx (after wi [Log INFO (Field "IP" ip ctx)]) = (Throw e, wl) ->
        processAccount env pk index total proxy w =
          (Ok tt, after wl [Log ERROR (ErrorProcessingAccount (message e) ctx)])
        /\ accounts env (pk :: rest) index total w =
           accounts env rest (S index) total
             (after wl [Log ERROR (ErrorProcessingAccount (message e) ctx); Timer (num 5000)])).
Proof.
  split.
  - intros keypair proxy ctx w cfg w0 r w1 Hcfg Hreq. unfold carried.
    assert (Hlogin : login env keypair proxy ctx w =
      try_catch
        (token ← body_prop (Some r) "token";
         if truthy token then
           emit (Spinner OpLogin SpinSucceed);;
           mret token
         else
           nonce ← body_prop (Some r) "nonce";
           if truthy nonce then
             verifyResponse ← requestWithRetry env "post" UrlVerify (verifyPayload keypair nonce) cfg 3 (num 2000) ctx;
             emit (Spinner OpLogin SpinSucceed);;
             body_prop verifyResponse "token"
           else
             throw (Error "Unexpected response: neither token nor nonce received"))
        (fun error => loginFailure error) w1).
    { unfold login. erewrite bind_ok by exact Hcfg. rewrite bind_emit.
      unfold try_catch. erewrite bind_ok by exact Hreq. done. }
    rewrite Hlogin. clear Hlogin. unfold try_catch. rewrite bind_body_prop.
    destruct (prop (data r) "token") as [tok|e1] eqn:Ht.
    + destruct (truthy tok) eqn:Htok.
      * simpl; split_and!; try (intros; congruence).
      * rewrite bind_body_prop.
        destruct (prop (data r) "nonce") as [nonce|e2].
        -- destruct (truthy nonce) eqn:Hnonce.
           ++ simpl; split_and!; try (intros; congruence). intros _ _. split_and!; try done.
              unfold mbind at 1, M_bind at 1.
              destruct (requestWithRetry env "post" UrlVerify _ cfg 3 (num 2000) ctx w1)
                as [[v|e] w2]; [|done].
              rewrite bind_emit. unfold body_prop, lift.
              destruct (data_of v) as [d|e]; [destruct (prop d "token")|]; done.
           ++ simpl; split_and!; try (intros; congruence). intros _ _. eexists; reflexivity.
        -- simpl; split_and!; try (intros; congruence). intros _ _. eexists; reflexivity.
    + assert (Hn : carried r "nonce" = VUndef).
      { unfold carried. destruct (data r); simpl in *; done. }
      unfold carried in Hn. rewrite Hn.
      simpl; split_and!; try (intros; congruence). intros _ _. eexists; reflexivity.
  - intros pk rest index total keypair w ip wi e wl ctx proxy Hpk Hip Hlogin.
    pose proof (processAccount_login_throw env _ _ _ _ _ _ _ _ _ _ Hpk Hip Hlogin) as Hacc.
    split; [done|].
    simpl. unfold mbind at 1, M_bind at 1. unfold try_catch.
    fold proxy. rewrite Hacc. unfold delay. rewrite bind_emit, after_after, seconds_5. done.
Qed.

(** The demo server challenges the login with a nonce; [login] answers the
    challenge and returns the token of the verify endpoint. *)
Lemma login_protocol_witness :
  (login Demo.server Demo.alice VNull Demo.ctx0 Demo.w0).1 = Ok (VStr "session").
Proof.
  edestruct (proj1 (login_protocol Demo.server) Demo.alice VNull Demo.ctx0 Demo.w0)
    as (_ & B & _).
  - reflexivity.
  - reflexivity.
  - destruct B as (_ & _ & _ & B); [reflexivity|reflexivity|].
    rewrite B. reflexivity.
Defined.

(** ** Task engine *)

(** C4. When both catalog requests return an array of tasks, the active-task
    list is the one-time catalog followed by the daily catalog, and the
    pending filter keeps exactly the tasks whose [user_completion] field is
    there and holds null, in that order. A task that has no such field has
    no completion marker either, and is not kept. *)
Theorem active_then_pending {rt : Runtime} (env : Env) token proxy ctx w r1 w1 r2 w2 c1 c2 :
  catalogRequest env UrlTasksOnce token proxy ctx (after w [Spinner OpFetchTasks SpinStart])
    = (Ok (Some r1), w1) ->
  catalogRequest env UrlTasksDaily token proxy ctx w1 = (Ok (Some r2), w2) ->
  prop (data r1) "data" = Ok (VArr c1) ->
  prop (data r2) "data" = Ok (VArr c2) ->
  Forall (fun t => nullish t = false) (c1 ++ c2) ->
  fetchActiveTasks env token proxy ctx w =
    (Ok (c1 ++ c2), after w2 [Spinner OpFetchTasks SpinStop])
  /\ pendingFilter (c1 ++ c2) =
       Ok (List.filter marker_absent c1 ++ List.filter marker_absent c2)
  /\ (forall t, In t (List.filter marker_absent c1 ++ List.filter marker_absent c2) <->
                In t (c1 ++ c2) /\ marker_absent t = true)
  /\ (forall t, marker_absent t = true <->
                exists m, t = VObj m /\ m !! "user_completion" = Some VNull).
Proof.
  intros H1 H2 Hc1 Hc2 Hdef. split_and!; [| | |apply marker_absent_null].
  - unfold fetchActiveTasks. rewrite bind_emit.
    erewrite try_ok; [done|].
    erewrite bind_ok by (eapply fetchCatalogs_two; eauto).
    by rewrite bind_emit.
  - by rewrite pendingFilter_filter, List.filter_app.
  - intros t. by rewrite <- List.filter_app, List.filter_In.
Qed.

(** Five one-time tasks, two of them completed, and two daily tasks: five
    tasks are pending, the one-time ones first. *)
Lemma active_then_pending_witness :
  (fetchActiveTasks Demo.server (VStr "session") VNull Demo.ctx0 Demo.w0).1 =
    Ok (Demo.onceCatalog ++ Demo.dailyCatalog)
  /\ pendingFilter (Demo.onceCatalog ++ Demo.dailyCatalog) =
       Ok [Demo.taskObj "once-2" VNull; Demo.taskObj "once-4" VNull;
           Demo.taskObj "once-5" VNull; Demo.taskObj "daily-1" VNull;
           Demo.taskObj "daily-2" VNull].
Proof.
  edestruct (active_then_pending Demo.server (VStr "session") VNull Demo.ctx0 Demo.w0)
    as (A & B & _ & _).
  - reflexivity.
  - reflexivity.
  - reflexivity.
  - reflexivity.
  - repeat constructor.
  - split; [by rewrite A|by rewrite B].
Defined.

(** C4 as the specification states it fails: a task that the server lists
    without a [user_completion] field has no completion marker, so the
    specification makes it eligible; the code fetches it, keeps it out of
    the pending tasks, and the account ends without a completion request. *)
Lemma unmarked_task_counterexample :
  let active := [Demo.unmarkedTask] in
  let t := trace (session Demo.unmarkedServer Demo.alice VNull Demo.ctx0 Demo.w0).2 in
  (fetchActiveTasks Demo.unmarkedServer (VStr "session") VNull Demo.ctx0 Demo.w0).1 = Ok active /\
  completionMarker Demo.unmarkedTask = None /\
  spec_pendingFilter active = active /\
  pendingFilter active = Ok [] /\
  In (Log INFO (NoTasksReady Demo.ctx0)) t /\
  List.filter (fun req => match url req with UrlComplete _ => true | _ => false end)
              (requests t) = [].
Proof. vm_compute. split_and!; try done. tauto. Qed.

(** C5. In the loop over the pending tasks, every task is submitted with
    its own completion request, between one and three times, and the server
    answers. The task raises the completed counter by one when the last of
    these answers is accepted and has status APPROVED, and leaves it as it
    is otherwise; either way the loop goes on: every pending task gets its
    requests, in order, and its tick of the progress bar, and the final
    count is the number of APPROVED responses. This is for tasks with a
    string (or array) id and a proxy for which the configuration can be
    built; any other task leaves the counter as it is and does not stop
    the loop either. The tasks the pending filter lets through are the ones
    the loop accepts. *)
Theorem completed_count_is_approvals {rt : Runtime} (env : Env) :
  (forall t count token proxy ctx w,
     nullish t = false ->
     slice_check (task_id t) = Ok tt ->
     safe (getAxiosConfig proxy token) ->
     let req := completionRequest proxy token t in
     exists n ev w',
       (1 <= n <= 3)%nat /\
       completeOne env t count token proxy ctx w = (Ok (count + approvals ev)%nat, w') /\
       trace w' = trace w ++ ev /\
       calls w' = (calls w + n)%nat /\
       https ev = map (fun ans => (req, ans)) (answersFrom env (calls w) n req) /\
       ticks ev = 0%nat /\
       approvals ev = (if approves (wire env (calls w + (n - 1)) req) then 1 else 0)%nat)
  /\ (forall pending count token proxy ctx w,
        Forall (fun t => nullish t = false /\ slice_check (task_id t) = Ok tt) pending ->
        safe (getAxiosConfig proxy token) ->
        exists ns ev w',
          completeAll env pending count token proxy ctx w = (Ok (count + approvals ev)%nat, w') /\
          trace w' = trace w ++ ev /\
          ticks ev = length pending /\
          length ns = length pending /\
          Forall (fun n => (1 <= n <= 3)%nat) ns /\
          calls w' = (calls w + sum_list ns)%nat /\
          https ev = completionAnswers env proxy token (calls w) pending ns)
  /\ (forall t count token proxy ctx w,
        nullish t = false ->
        exists ev w',
          completeOne env t count token proxy ctx w = (Ok (count + approvals ev)%nat, w') /\
          trace w' = trace w ++ ev /\ ticks ev = 0%nat /\ (approvals ev <= 1)%nat)
  /\ (forall pending count token proxy ctx w,
        Forall (fun t => nullish t = false) pending ->
        exists ev w',
          completeAll env pending count token proxy ctx w = (Ok (count + approvals ev)%nat, w') /\
          trace w' = trace w ++ ev /\ ticks ev = length pending)
  /\ (forall activeTasks pending,
        pendingFilter activeTasks = Ok pending ->
        Forall (fun t => nullish t = false) pending).
Proof.
  split_and!.
  - intros t count token proxy ctx w. apply completeOne_run.
  - intros pending count token proxy ctx w. apply completeAll_run.
  - apply completeOne_count.
  - intros pending. induction pending as [|t pending IH]; intros count token proxy ctx w Hdef.
    + exists [], w. simpl. rewrite app_nil_r. split_and!; try done.
      unfold approvals. simpl. by rewrite Nat.add_0_r.
    + apply Forall_cons in Hdef as [Ht Hdef]. 
      destruct (completeOne_count env t count token proxy ctx w Ht) as (ev1 & w1 & E1 & Htr1 & Hk1 & _).
      simpl. erewrite bind_ok by exact E1. unfold delay. rewrite !bind_emit, after_after.
      edestruct (IH (count + approvals ev1)%nat token proxy ctx) as (ev2 & w2 & E2 & Htr2 & Hk2);
        [exact Hdef|].
      rewrite E2.
      exists (ev1 ++ [Tick; Timer (num 2 * num 1000)] ++ ev2), w2.
      rewrite !approvals_app, !ticks_app, Hk1, Hk2, Htr2. cbn [trace after].
      rewrite Htr1, <- !app_assoc.
      split_and!; [|done|].
      * replace (approvals [Tick; Timer (num 2 * num 1000)]) with 0%nat by reflexivity.
        do 2 f_equal. lia.
      * replace (ticks [Tick; Timer (num 2 * num 1000)]) with 1%nat by reflexivity.
        simpl. lia.
  - apply pendingFilter_defined.
Qed.

(** The five pending tasks of the demo server, run through the loop: each is
    submitted once, the server approves four of them and rejects [daily-2],
    and the count is four. *)
Lemma completed_count_is_approvals_witness :
  (completeAll Demo.server Demo.pendingFive 0 (VStr "session") VNull Demo.ctx0 Demo.w0).1
    = Ok 4%nat /\
  exists ns ev,
    trace (completeAll Demo.server Demo.pendingFive 0 (VStr "session") VNull
             Demo.ctx0 Demo.w0).2 = ev /\
    approvals ev = 4%nat /\ ticks ev = 5%nat /\ length ns = 5%nat /\
    https ev = completionAnswers Demo.server VNull (VStr "session") 0 Demo.pendingFive ns.
Proof.
  destruct (proj1 (proj2 (completed_count_is_approvals Demo.server))
              Demo.pendingFive 0%nat (VStr "session") VNull Demo.ctx0 Demo.w0)
    as (ns & ev & w' & E & Htr & Hk & Hl & _ & _ & Hh).
  - repeat constructor.
  - intros w. eexists _, _. reflexivity.
  - assert (Ha : approvals (trace (completeAll Demo.server Demo.pendingFive 0 (VStr "session")
                                     VNull Demo.ctx0 Demo.w0).2) = 4%nat)
      by (vm_compute; reflexivity).
    rewrite E in *. simpl in *. rewrite Htr in Ha. simpl in Ha.
    split; [by rewrite Ha|]. exists ns, ev. by rewrite Htr.
Defined.

(** ** Account processor and cycle scheduler *)

(** C6. With proxying enabled and a list of P >= 1 proxies, the account at
    index i is given proxies[i mod P]. With proxying disabled it is given
    null, and over an empty list null or undefined: no proxy in either case,
    and the request configuration is then built without an agent. These are
    the proxies the loop of [runCycle] passes to [processAccount]. *)
Theorem proxy_round_robin {rt : Runtime} (env : Env) :
  (forall proxies i,
     proxies <> [] ->
     exists p, proxies !! (i mod length proxies)%nat = Some p /\
               assignedProxy true proxies i = VStr p)
  /\ (forall proxies i, assignedProxy false proxies i = VNull)
  /\ (forall useProxy i, nullish (assignedProxy useProxy [] i) = true)
  /\ (forall proxy token w,
        nullish proxy = true ->
        getAxiosConfig proxy token w =
          (Ok {| authorization := if truthy token then Some token else None;
                 timeout := 60000; httpsAgent := None; validateStatus := DefaultStatus |}, w))
  /\ (forall pk rest i total w,
        accounts env (pk :: rest) i total w =
          (try_catch
             (processAccount env pk i total
                (assignedProxy (globalUseProxy w) (globalProxies w) i))
             (fun error => logger ERROR (ErrorProcessingAccount (message error)
                                           (accountContext i total)));;
           delay (num 5);;
           accounts env rest (S i) total) w).
Proof.
  split_and!.
  - apply assignedProxy_enabled.
  - done.
  - by intros [].
  - by intros [].
  - done.
Qed.

(** Two proxies: the account at index 5 gets the second one. *)
Lemma proxy_round_robin_witness :
  exists p,
    ["http://10.0.0.1:8080"; "socks5://10.0.0.2:1080"] !! (5 mod 2)%nat = Some p /\
    assignedProxy true ["http://10.0.0.1:8080"; "socks5://10.0.0.2:1080"] 5 = VStr p.
Proof.
  apply (proj1 (proxy_round_robin Demo.server)
           ["http://10.0.0.1:8080"; "socks5://10.0.0.2:1080"] 5).
  discriminate.
Defined.



(** C8. When the list of keys comes back empty, the cycle logs the error and
    returns: no request is made and no account is opened. The scheduler
    then logs the end of the cycle, sleeps 24 hours (86400000 ms) and starts
    the next round; no number of rounds makes it throw. *)
Theorem empty_cycle_keeps_scheduler {rt : Runtime} (env : Env) :
  (forall w w1,
     readPKs env w = (Ok [], w1) ->
     runCycle env w = (Ok tt, after w1 [Log ERROR NoPrivateKeys])
     /\ (trace w1 = trace w ++ [Log INFO (LoadedKeys 0)] \/
         exists msg, trace w1 = trace w ++ [Log ERROR (FailedReadPk msg)])
     /\ calls w1 = calls w
     /\ forall n,
          cycles env (S n) w =
          cycles env n (after w1 [Log ERROR NoPrivateKeys; Log INFO CycleCompleted;
                                  Timer (num 86400000)]))
  /\ (forall n w, exists w', cycles env n w = (Ok tt, w')).
Proof.
  split.
  - intros w w1 Hread.
    destruct (readPKs_contained env w) as (pks & w1' & line & E & _ & _ & _ & _ & Hc).
    rewrite Hread in E. injection E as E1 E2. subst pks w1'.
    destruct (readPKs_line env w) as (pks & w1' & E & Hline).
    rewrite Hread in E. injection E as E1 E2. subst pks w1'.
    assert (Hrun : runCycle env w = (Ok (), after w1 [Log ERROR NoPrivateKeys])).
    { unfold runCycle. by erewrite bind_ok by exact Hread. }
    split_and!; [done| |done|].
    { destruct Hline as [Hline|(msg & _ & Hline)]; [by left|right; by exists msg]. }
    intros n. simpl. erewrite bind_ok by exact Hrun. unfold logger, delay.
    by rewrite !bind_emit, !after_after, seconds_86400.
  - intros n w. destruct (cycles_contained env n w) as (w' & E & _). eauto.
Qed.

(** No key file: the cycle logs the two errors and returns. *)
Lemma empty_cycle_keeps_scheduler_witness :
  runCycle Demo.env404 Demo.w0 =
    (Ok tt,
     {| globalUseProxy := false; globalProxies := []; calls := 0; reads := 1;
        trace := [Log ERROR (FailedReadPk "ENOENT: no such file or directory");
                  Log ERROR NoPrivateKeys] |}).
Proof.
  exact (proj1 (proj1 (empty_cycle_keeps_scheduler Demo.env404) Demo.w0
                  (readPKs Demo.env404 Demo.w0).2 eq_refl)).
Defined.

(** C9. [fetchActiveTasks] never throws. When the request for either catalog
    fails, it returns the empty list; the rest of the pass then runs as for
    an account without tasks: nothing is completed, and the table and the
    profile follow. *)
Theorem fetchActiveTasks_never_raises {rt : Runtime} (env : Env) token proxy ctx :
  (forall w, exists tasks w', fetchActiveTasks env token proxy ctx w = (Ok tasks, w'))
  /\ (forall w e w1,
        catalogRequest env UrlTasksOnce token proxy ctx (after w [Spinner OpFetchTasks SpinStart])
          = (Throw e, w1) ->
        fetchActiveTasks env token proxy ctx w =
          (Ok [], after w1 [Spinner OpFetchTasks
                              (SpinFail (" Failed to fetch active tasks: " ++ message e)%string)]))
  /\ (forall w r1 w1 c1 e w2,
        catalogRequest env UrlTasksOnce token proxy ctx (after w [Spinner OpFetchTasks SpinStart])
          = (Ok (Some r1), w1) ->
        prop (data r1) "data" = Ok c1 ->
        catalogRequest env UrlTasksDaily token proxy ctx w1 = (Throw e, w2) ->
        fetchActiveTasks env token proxy ctx w =
          (Ok [], after w2 [Spinner OpFetchTasks
                              (SpinFail (" Failed to fetch active tasks: " ++ message e)%string)]))
  /\ (forall w,
        taskPass env [] token proxy ctx w =
          (formatTaskTable [] ctx;;
           updatedProfileInfo ← fetchProfileInfo env token proxy ctx;
           match updatedProfileInfo with
           | Some p => printProfileInfo (profileAddress p) (userId p) (totalPoints p) ctx
           | None => logger WARN (FailedProfileDisplay ctx)
           end;;
           logger INFO (CompletedAccount ctx))
          (after w [Log INFO (NoTasksReady ctx)])).
Proof.
  split_and!.
  - apply fetchActiveTasks_safe.
  - intros w e w1 H1. unfold fetchActiveTasks. rewrite bind_emit.
    erewrite try_throw; [by rewrite bind_emit|].
    erewrite bind_throw; [done|]. simpl. by erewrite bind_throw.
  - intros w r1 w1 c1 e w2 H1 Hc1 H2. unfold fetchActiveTasks. rewrite bind_emit.
    erewrite try_throw; [by rewrite bind_emit|].
    erewrite bind_throw; [done|]. simpl.
    erewrite bind_ok by exact H1. rewrite bind_body_prop, Hc1.
    by erewrite bind_throw.
  - intros w. reflexivity.
Qed.

(** A server that answers 404 to everything: both catalog requests fail and
    the task list is empty. *)
Lemma fetchActiveTasks_never_raises_witness :
  (fetchActiveTasks Demo.env404 (VStr "session") VNull Demo.ctx0 Demo.w0).1 = Ok [].
Proof.
  erewrite (proj1 (proj2 (fetchActiveTasks_never_raises Demo.env404 (VStr "session") VNull
                            Demo.ctx0))).
  - reflexivity.
  - reflexivity.
Defined.

(** C10. Starting from the initial state (proxying off), [initializeConfig]
    leaves the flag on only over a non-empty proxy list; nothing that runs
    afterwards (the rounds of the scheduler, the loop over the accounts, the
    processing of an account) changes the two variables; and under that
    invariant the proxy of an account is never undefined: it is an element of
    the list when the flag is on, and null when it is off. *)
Theorem proxy_flag_invariant {rt : Runtime} (env : Env) :
  (forall w,
     globalUseProxy w = false ->
     let w' := (initializeConfig env w).2 in
     globalUseProxy w' = true -> globalProxies w' <> [])
  /\ (forall n w, globals (cycles env n w).2 = globals w)
  /\ (forall todo i total w, globals (accounts env todo i total w).2 = globals w)
  /\ (forall pk i total proxy w, globals (processAccount env pk i total proxy w).2 = globals w)
  /\ (forall useProxy proxies i,
        (useProxy = true -> proxies <> []) ->
        assignedProxy useProxy proxies i <> VUndef /\
        (useProxy = true ->
         exists p, proxies !! (i mod length proxies)%nat = Some p /\
                   assignedProxy useProxy proxies i = VStr p))
  /\ (forall n w,
        globalUseProxy w = false ->
        let w' := (run env n w).2 in
        globalUseProxy w' = true -> globalProxies w' <> []).
Proof.
  assert (Hinit : forall w, globalUseProxy w = false ->
            let w' := (initializeConfig env w).2 in
            globalUseProxy w' = true -> globalProxies w' <> []).
  { intros w Hoff w' Hon. destruct (initializeConfig_globals env w) as [H|H]; [by apply H|].
    fold w' in H. unfold globals in H. injection H as H1 H2. congruence. }
  split_and!.
  - exact Hinit.
  - intros n w. destruct (cycles_contained env n w) as (w' & E & Hg). by rewrite E.
  - intros todo i total w.
    destruct (accounts_contained env todo i total w) as (w' & t & E & _ & _ & Hg). by rewrite E.
  - intros pk i total proxy w.
    destruct (processAccount_contained env pk i total proxy w) as (w' & t & E & _ & _ & Hg).
    by rewrite E.
  - apply assignedProxy_defined.
  - intros n w Hoff. unfold run. unfold mbind, M_bind.
    specialize (Hinit w Hoff). simpl in Hinit.
    destruct (initializeConfig env w) as [[[]|e] w1]; simpl in *; [|done].
    destruct (cycles_contained env n w1) as (w' & E & Hg). rewrite E. simpl.
    unfold globals in Hg. injection Hg as -> ->. done.
Qed.

(** The operator answers y and the proxy file holds two proxies. *)
Lemma proxy_flag_invariant_witness :
  globalProxies (initializeConfig Demo.server Demo.w0).2 <> [].
Proof.
  apply (proj1 (proxy_flag_invariant Demo.server) Demo.w0); reflexivity.
Defined.

(** * Further properties of the code

    The display helpers, the request layer, the input files and the
    account loop, beyond what the claims above state. *)

(** ** Strings and the display helpers *)

Lemma length_append (s1 s2 : string) :
  String.length (s1 ++ s2)%string = (String.length s1 + String.length s2)%nat.
Proof. induction s1 as [|c s1 IH]; simpl; [done|]. by rewrite IH. Qed.

Lemma length_spaces n : String.length (spaces n) = n.
Proof. induction n as [|n IH]; simpl; [done|]. by rewrite IH. Qed.

Lemma params_len_bound s n : params_len s = Some n -> (1 <= n <= String.length s)%nat.
Proof.
  revert n. induction s as [|c s IH]; intros n; simpl; [done|].
  destruct (is_param c).
  - destruct (params_len s) as [k|]; [|done]. intros [= <-].
    specialize (IH k eq_refl). lia.
  - destruct (Ascii.eqb c _); [|done]. intros [= <-]. lia.
Qed.

Lemma ansi_len_bound s n : ansi_len s = Some n -> (3 <= n <= String.length s)%nat.
Proof.
  destruct s as [|c [|d rest]]; simpl; try done.
  destruct (Ascii.eqb c ESC && Ascii.eqb d _); [|done].
  destruct (params_len rest) as [k|] eqn:E; [|done]. intros [= <-].
  apply params_len_bound in E. lia.
Qed.

Lemma ansi_len_ESC c rest n : ansi_len (String c rest) = Some n -> c = ESC.
Proof.
  destruct rest as [|d rest]; simpl; [done|].
  destruct (Ascii.eqb c ESC) eqn:E; [|done]. intros _. by apply Ascii.eqb_eq.
Qed.

Lemma strip_length s : forall skip,
  (String.length (strip skip s) <= String.length s - skip)%nat.
Proof.
  induction s as [|c s IH]; intros skip; [simpl; lia|].
  destruct skip as [|k].
  - cbn [strip]. destruct (ansi_len (String c s)) as [n|] eqn:E.
    + apply ansi_len_bound in E. specialize (IH (n - 1)%nat). simpl in *. lia.
    + specialize (IH 0%nat). simpl in *. lia.
  - cbn [strip]. specialize (IH k). simpl. lia.
Qed.

Lemma strip_without s : without ESC s -> strip 0 s = s.
Proof.
  induction s as [|c s IH]; [done|]. intros [Hc Hs].
  cbn [strip]. destruct (ansi_len (String c s)) as [n|] eqn:E.
  - by apply ansi_len_ESC in E.
  - by rewrite IH.
Qed.

Lemma without_spaces n : without ESC (spaces n).
Proof. induction n; simpl; [done|]. split; [done|assumption]. Qed.

Lemma params_len_spaces s r : params_len (s ++ spaces r)%string = params_len s.
Proof.
  induction s as [|c s IH]; simpl.
  - by destruct r.
  - by rewrite IH.
Qed.

Lemma ansi_len_spaces c s r :
  ansi_len (String c s ++ spaces r)%string = ansi_len (String c s).
Proof.
  destruct s as [|d s]; simpl.
  - destruct r; simpl; [done|]. by rewrite andb_false_r.
  - by rewrite params_len_spaces.
Qed.

Lemma strip_spaces r s : forall skip,
  (skip <= String.length s)%nat ->
  strip skip (s ++ spaces r)%string = (strip skip s ++ spaces r)%string.
Proof.
  induction s as [|c s IH]; intros skip Hskip.
  - simpl in Hskip. replace skip with 0%nat by lia. simpl.
    apply strip_without, without_spaces.
  - destruct skip as [|k].
    + change (String c s ++ spaces r)%string with (String c (s ++ spaces r)%string) at 1.
      cbn [strip].
      change (String c (s ++ spaces r)%string) with (String c s ++ spaces r)%string.
      rewrite ansi_len_spaces.
      destruct (ansi_len (String c s)) as [n|] eqn:E.
      * apply ansi_len_bound in E. apply IH. simpl in E. lia.
      * simpl. by rewrite IH by lia.
    + simpl. apply IH. simpl in Hskip. lia.
Qed.

Lemma strip_plain c s : c <> ESC -> strip 0 (String c s) = String c (strip 0 s).
Proof.
  intros Hc. cbn [strip]. destruct (ansi_len (String c s)) as [n|] eqn:E; [|done].
  by apply ansi_len_ESC in E.
Qed.

Lemma strip_spaces_front l s :
  stripAnsi (spaces l ++ s)%string = (spaces l ++ stripAnsi s)%string.
Proof.
  unfold stripAnsi. induction l as [|l IH]; [done|].
  change (spaces (S l) ++ s)%string
    with (String (Ascii.ascii_of_nat 32) (spaces l ++ s)%string).
  rewrite strip_plain by done. by rewrite IH.
Qed.

Lemma params_len_sgr p s :
  all_params p ->
  params_len (p ++ String (Ascii.ascii_of_nat 109) s)%string = Some (S (String.length p)).
Proof.
  induction p as [|c p IH]; simpl; [done|]. intros [-> Hp]. by rewrite IH.
Qed.

Lemma strip_skip pre s : strip (String.length pre) (pre ++ s)%string = strip 0 s.
Proof. induction pre as [|c pre IH]; [done|]. simpl. apply IH. Qed.

Lemma append_assoc (a b c : string) : ((a ++ b) ++ c)%string = (a ++ (b ++ c))%string.
Proof.
  induction a as [|x a IH]; [done|].
  change (String x ((a ++ b) ++ c)%string = String x (a ++ (b ++ c))%string).
  by rewrite IH.
Qed.

Lemma stripAnsi_sgr p s : all_params p -> stripAnsi (sgr p ++ s)%string = stripAnsi s.
Proof.
  intros Hp. unfold stripAnsi.
  change (sgr p ++ s)%string
    with (String ESC (String (Ascii.ascii_of_nat 91)
            ((p ++ String (Ascii.ascii_of_nat 109) EmptyString) ++ s)%string)).
  rewrite append_assoc.
  change (String (Ascii.ascii_of_nat 109) EmptyString ++ s)%string
    with (String (Ascii.ascii_of_nat 109) s).
  cbn [strip ansi_len].
  replace (Ascii.eqb ESC ESC && Ascii.eqb (Ascii.ascii_of_nat 91) (Ascii.ascii_of_nat 91))
    with true by reflexivity.
  rewrite (params_len_sgr p s Hp). cbn [option_map Nat.sub strip].
  clear Hp. induction p as [|c p IH]; [done|]. exact IH.
Qed.

(** ** [stripAnsi] and [centerText] *)

(** X1. [stripAnsi] never makes a string longer, returns a string without
    the escape character unchanged, keeps every code unit that is not the
    escape character where it is, and removes a colour sequence (escape,
    bracket, digits and semicolons, m) at the head of a string. *)
Theorem stripAnsi_removes_codes_only :
  (forall s, (String.length (stripAnsi s) <= String.length s)%nat)
  /\ (forall s, without ESC s -> stripAnsi s = s)
  /\ (forall c s, c <> ESC -> stripAnsi (String c s) = String c (stripAnsi s))
  /\ (forall p s, all_params p -> stripAnsi (sgr p ++ s)%string = stripAnsi s).
Proof.
  split_and!.
  - intros s. pose proof (strip_length s 0). unfold stripAnsi. lia.
  - apply strip_without.
  - intros c s Hc. by apply strip_plain.
  - apply stripAnsi_sgr.
Qed.

(** The sequence 1;32 (bold green) before a word. *)
Lemma stripAnsi_removes_codes_only_witness :
  stripAnsi (sgr "1;32" ++ "ok")%string = stripAnsi "ok".
Proof.
  apply (proj2 (proj2 (proj2 stripAnsi_removes_codes_only))). simpl. repeat split.
Defined.

Lemma length_utf16 b cp cp' : length (utf16 b cp) = length (utf16 b cp').
Proof. unfold utf16. by destruct (b <? 240)%N. Qed.

(** The number of code units is additive: it depends on the first byte of
    each sequence only. *)
Lemma length_units_app (s t : string) :
  length (units (s ++ t)%string) = (length (units s) + length (units t))%nat.
Proof.
  induction s as [|c s IH]; [done|].
  change (String c s ++ t)%string with (String c (s ++ t)%string).
  cbn [units]. rewrite !length_app, IH.
  destruct (continuation (Ascii.N_of_ascii c)); [done|].
  rewrite (length_utf16 _ _ (codePoint (Ascii.N_of_ascii c) s)). lia.
Qed.

Lemma length_units_spaces n : length (units (spaces n)) = n.
Proof. induction n as [|n IH]; [done|]. cbn [spaces units]. rewrite length_app, IH. done. Qed.

(** X2. [centerText] returns the text itself between two runs of spaces;
    the left run is the shorter one by at most one space; together they
    fill the width left by the visible text (the text without its colour
    sequences, counted in UTF-16 code units as [length] does) and are empty
    when the visible text is wider; the visible length of the result is the
    larger of the width and the visible length of the text. *)
Theorem centerText_pads_to_width text width :
  let visible := Z.of_nat (length (units (stripAnsi text))) in
  exists l r : nat,
    centerText text width = (spaces l ++ text ++ spaces r)%string
    /\ (l <= r <= l + 1)%nat
    /\ Z.of_nat (l + r) = Z.max 0 (width - visible)
    /\ Z.of_nat (length (units (stripAnsi (centerText text width)))) = Z.max width visible.
Proof.
  intros visible. unfold centerText. fold visible.
  set (totalPadding := Z.max 0 (width - visible)).
  assert (0 <= totalPadding)%Z by lia.
  assert (0 <= totalPadding / 2)%Z by (apply Z.div_pos; lia).
  assert (totalPadding / 2 <= totalPadding - totalPadding / 2 <= totalPadding / 2 + 1)%Z.
  { pose proof (Z.div_mod totalPadding 2 ltac:(lia)).
    pose proof (Z.mod_pos_bound totalPadding 2 ltac:(lia)). lia. }
  exists (Z.to_nat (totalPadding / 2)), (Z.to_nat (totalPadding - totalPadding / 2)).
  split_and!; [done|lia|lia|lia|].
  rewrite strip_spaces_front. unfold stripAnsi at 1.
  rewrite strip_spaces by lia.
  rewrite !length_units_app, !length_units_spaces. fold (stripAnsi text). fold visible. lia.
Qed.

(** The two lines [run] centres, in a terminal of 80 columns: 26 and 53
    code units, so 27 and 13 spaces on the left. *)
Example centerText_banners :
  length (units botBanner) = 26%nat /\
  length (units channelBanner) = 53%nat /\
  centerText botBanner 80 = (spaces 27 ++ botBanner ++ spaces 27)%string /\
  centerText channelBanner 80 = (spaces 13 ++ channelBanner ++ spaces 14)%string.
Proof. vm_compute. done. Qed.

Lemma length_unknown : length (units "Unknown Task") = 12%nat.
Proof. vm_compute. done. Qed.

Lemma length_dots : length (units "...") = 3%nat.
Proof. vm_compute. done. Qed.

(** X3. The name column of the task table is always 20 code units wide. A
    description that is a non-empty string of at most 20 code units is
    shown as it is, a longer one as its first 17 code units followed by
    three dots, and a description that is missing or empty, or that is not
    a string (a number, a boolean, an array, an object), as Unknown Task. *)
Theorem nameColumn_width description :
  length (nameColumn description) = 20%nat
  /\ (forall s, description = VStr s -> s <> EmptyString -> (length (units s) <= 20)%nat ->
       displayName description = units s)
  /\ (forall s, description = VStr s -> (20 < length (units s))%nat ->
       displayName description = take 17 (units s) ++ units "...")
  /\ (truthy description = false -> displayName description = units "Unknown Task")
  /\ ((forall s, description <> VStr s) -> displayName description = units "Unknown Task").
Proof.
  split_and!.
  - unfold nameColumn, padEnd. rewrite length_app, length_replicate.
    assert (length (displayName description) <= 20)%nat; [|lia].
    pose proof length_unknown as Hu. pose proof length_dots as Hd.
    unfold displayName. destruct description as [| | | |s| |]; try lia.
    destruct (truthy (VStr s)); [|lia].
    destruct (Nat.ltb_spec 20 (length (units s))); [|done].
    rewrite length_app, length_take. lia.
  - intros s -> Hs Hlen. unfold displayName. simpl.
    destruct (String.eqb_spec s EmptyString); [done|]. simpl.
    destruct (Nat.ltb_spec 20 (length (units s))); [lia|done].
  - intros s -> Hlen. unfold displayName. simpl.
    destruct (String.eqb_spec s EmptyString) as [->|]; [simpl in Hlen; lia|]. simpl.
    destruct (Nat.ltb_spec 20 (length (units s))); [done|lia].
  - intros Hf. unfold displayName. destruct description; try done. by rewrite Hf.
  - intros Hn. unfold displayName. destruct description as [| | | |s| |]; try done.
    by destruct (Hn s).
Qed.

(** A description with a character outside the BMP: 10 code units. *)
Lemma nameColumn_width_witness :
  displayName (VStr "Follow 🚀 us") = units "Follow 🚀 us".
Proof.
  apply (proj1 (proj2 (nameColumn_width (VStr "Follow 🚀 us"))));
    [reflexivity|done|vm_compute; lia].
Defined.

(** X4. For every number [Math.random] can return (0 included, 1 excluded),
    [getRandomUserAgent] returns one of the four strings of the pool, never
    undefined. *)
Theorem getRandomUserAgent_in_pool (random : Q) :
  (0 <= random)%Q -> (random < 1)%Q ->
  exists ua, In ua userAgents /\ getRandomUserAgent random = VStr ua.
Proof.
  intros H0 H1. unfold getRandomUserAgent.
  set (index := Qfloor _).
  assert (0 <= index < 4)%Z as Hi.
  { subst index. simpl length. split.
    - change 0%Z with (Qfloor (inject_Z 0)). apply Qfloor_resp_le.
      apply Qmult_le_0_compat; [done|]. done.
    - rewrite Zlt_Qlt. eapply Qle_lt_trans; [apply Qfloor_le|].
      destruct random as [a b]. unfold Qlt in *. simpl in *. lia. }
  destruct (Z.ltb_spec index 0); [lia|].
  assert (Hc : Z.to_nat index = 0%nat \/ Z.to_nat index = 1%nat \/
               Z.to_nat index = 2%nat \/ Z.to_nat index = 3%nat) by lia.
  destruct Hc as [E|[E|[E|E]]]; rewrite E; simpl; eexists; (split; [|reflexivity]);
    simpl; tauto.
Qed.

Lemma getRandomUserAgent_in_pool_witness :
  exists ua, In ua userAgents /\ getRandomUserAgent (3 # 4) = VStr ua.
Proof.
  apply (getRandomUserAgent_in_pool (3 # 4)); unfold Qle, Qlt; simpl; lia.
Defined.

(** ** What the [catch] blocks contain *)

Section Catch.
Context {rt : Runtime} (env : Env).

Lemma truthy_js_or a b : truthy b = true -> truthy (js_or a b) = true.
Proof. intros Hb. unfold js_or. by destruct (truthy a) eqn:Ha. Qed.

Lemma getAxiosConfig_thrown proxy token w e w' :
  getAxiosConfig proxy token w = (Throw e, w') -> w' = w.
Proof.
  unfold getAxiosConfig, newAgent.
  destruct (truthy proxy); [|done].
  destruct proxy as [| |b|q|p|l|m]; try by intros [= _ <-].
  destruct (String.prefix "http://" p || String.prefix "https://" p).
  { destruct (urlError p); [by intros [= _ <-]|done]. }
  destruct (String.prefix "socks4://" p || String.prefix "socks5://" p).
  { destruct (urlError p); [by intros [= _ <-]|done]. }
  done.
Qed.

(** X9. [getPublicIP] never throws, and what it returns is never empty.
    When the configuration cannot be built, no request is made, the
    failure is logged and the text Error retrieving IP is returned.
    Otherwise the lookup service is called between one and three times,
    without a token, and the last answer decides: the [ip] of an accepted
    response, Unknown when that is missing or empty, and Error retrieving IP
    when the answer was not accepted or has no body to read. *)
Theorem getPublicIP_always_answers proxy ctx w :
  exists ip w' t,
    getPublicIP env proxy ctx w = (Ok ip, w') /\
    truthy ip = true /\
    trace w' = trace w ++ t /\
    match (getAxiosConfig proxy VNull w).1 with
    | Throw e =>
        ip = VStr "Error retrieving IP" /\
        t = [Log ERROR (FailedIP (message e) ctx)] /\
        calls w' = calls w
    | Ok _ =>
        exists n,
          (1 <= n <= 3)%nat /\
          calls w' = (calls w + n)%nat /\
          https t = map (fun ans => (ipRequest proxy, ans))
                        (answersFrom env (calls w) n (ipRequest proxy)) /\
          ip = match settle DefaultStatus (wire env (calls w + (n - 1)) (ipRequest proxy)) with
               | Ok r =>
                   match prop (data r) "ip" with
                   | Ok v => js_or v (VStr "Unknown")
                   | Throw _ => VStr "Error retrieving IP"
                   end
               | Throw _ => VStr "Error retrieving IP"
               end
    end.
Proof.
  unfold getPublicIP, try_catch.
  destruct (getAxiosConfig proxy VNull w) as [[cfg|e] w0] eqn:Ecfg.
  2:{ apply getAxiosConfig_thrown in Ecfg as Hw. subst w0.
      erewrite bind_throw by exact Ecfg. unfold logger. rewrite bind_emit.
      by eexists _, _, _. }
  destruct (getAxiosConfig_built _ _ _ _ _ Ecfg) as (-> & Hcalls & t0 & Ht0 & Hsil).
  erewrite bind_ok by exact Ecfg.
  destruct (requestWithRetry_run env "get" UrlIpify VNull
              (configFor proxy VNull DefaultStatus) ctx w0 (ipRequest proxy) eq_refl)
    as (n & t & Hn & Ht & Hk & Hh & _ & _ & Hout & _).
  rewrite Hcalls in *.
  change (validateStatus (configFor proxy VNull DefaultStatus)) with DefaultStatus in Hout.
  unfold outcome in Hout.
  destruct (requestWithRetry env "get" UrlIpify VNull
              (configFor proxy VNull DefaultStatus) 3 (num 2000) ctx w0)
    as [[resp|e] w2] eqn:Ereq; simpl in Ht, Hk, Hout;
    destruct (settle DefaultStatus (wire env (calls w + (n - 1)) (ipRequest proxy)))
      as [r0|e0] eqn:Hlast; try done.
  - injection Hout as ->.
    erewrite bind_ok by exact Ereq. rewrite bind_body_prop.
    destruct (prop (data r0) "ip") as [v|e3] eqn:Hip.
    + exists (js_or v (VStr "Unknown")), w2, (t0 ++ t).
      split_and!; [done|by apply truthy_js_or|by rewrite Ht, Ht0, <- app_assoc|].
      cbn [fst]. exists n. rewrite Hlast, Hip, https_app, (silent_https _ Hsil). done.
    + unfold logger. rewrite bind_emit.
      exists (VStr "Error retrieving IP"), (after w2 [Log ERROR (FailedIP (message e3) ctx)]),
             (t0 ++ t ++ [Log ERROR (FailedIP (message e3) ctx)]).
      split_and!; [done|done|simpl; by rewrite Ht, Ht0, <- !app_assoc|].
      cbn [fst]. exists n. rewrite Hlast, Hip, !https_app, (silent_https _ Hsil), Hh.
      split_and!; [lia|lia|done|by rewrite app_nil_r|done].
  - injection Hout as ->.
    erewrite bind_throw by exact Ereq. unfold logger. rewrite bind_emit.
    exists (VStr "Error retrieving IP"), (after w2 [Log ERROR (FailedIP (message e0) ctx)]),
           (t0 ++ t ++ [Log ERROR (FailedIP (message e0) ctx)]).
    split_and!; [done|done|simpl; by rewrite Ht, Ht0, <- !app_assoc|].
    cbn [fst]. exists n. rewrite Hlast, !https_app, (silent_https _ Hsil), Hh.
    split_and!; [lia|lia|done|by rewrite app_nil_r|done].
Qed.



(** X5. [getAxiosConfig] by the kind of proxy. Without a proxy, and with a
    proxy of a supported scheme whose URL parses, it returns the
    configuration silently; with a proxy of any other scheme it logs the
    warning and returns a configuration whose agent is null; whenever it
    returns, the configuration carries the token (if there is one), the 60
    second timeout, the agent for the proxy and the default status
    policy, and no HTTP call was made. *)
Theorem getAxiosConfig_cases proxy token w :
  (truthy proxy = false ->
     getAxiosConfig proxy token w = (Ok (configFor proxy token DefaultStatus), w)) /\
  (forall p, proxy = VStr p -> httpScheme p || socksScheme p = true -> urlError p = None ->
     getAxiosConfig proxy token w = (Ok (configFor proxy token DefaultStatus), w)) /\
  (forall p, proxy = VStr p -> truthy proxy = true -> httpScheme p || socksScheme p = false ->
     getAxiosConfig proxy token w =
       (Ok (configFor proxy token DefaultStatus), after w [Log WARN (UnsupportedProxy p)]) /\
     httpsAgent (configFor proxy token DefaultStatus) = Some None) /\
  (forall cfg w', getAxiosConfig proxy token w = (Ok cfg, w') ->
     cfg = configFor proxy token DefaultStatus /\ calls w' = calls w).
Proof.
  unfold getAxiosConfig, configFor, agentOf, newAgent, httpScheme, socksScheme.
  split_and!.
  - intros Hp. rewrite Hp. by destruct proxy.
  - intros p -> Hs Hu.
    destruct (truthy (VStr p)) eqn:Ht.
    2:{ simpl in Ht. apply negb_false_iff, String.eqb_eq in Ht. subst p. done. }
    destruct (String.prefix "http://" p || String.prefix "https://" p); rewrite Hu; [done|].
    simpl in Hs. by rewrite Hs.
  - intros p -> Ht Hs. rewrite Ht. apply orb_false_iff in Hs as [-> ->]. by split.
  - intros cfg w'.
    destruct (truthy proxy) eqn:Hp.
    2:{ intros [= <- <-]. by destruct proxy. }
    destruct proxy as [| |b|q|p|l|m]; try done.
    destruct (String.prefix "http://" p || String.prefix "https://" p).
    { destruct (urlError p); [done|]. by intros [= <- <-]. }
    destruct (String.prefix "socks4://" p || String.prefix "socks5://" p).
    { destruct (urlError p); [done|]. by intros [= <- <-]. }
    by intros [= <- <-].
Qed.

End Catch.


(** No proxy. *)
Lemma getAxiosConfig_cases_witness :
  getAxiosConfig VNull VNull Demo.w0 = (Ok (configFor VNull VNull DefaultStatus), Demo.w0).
Proof.
  apply (proj1 (getAxiosConfig_cases VNull VNull Demo.w0)). reflexivity.
Defined.

(** ** Request budgets *)

Section Costs.
Context {rt : Runtime} (env : Env).

Lemma costs_ret {A} k (a : A) : costs k (mret a).
Proof. intros w. simpl. lia. Qed.

Lemma costs_throw {A} k e : costs k (@throw A e).
Proof. intros w. simpl. lia. Qed.

Lemma costs_lift {A} k (r : Res A) : costs k (lift r).
Proof. intros w. simpl. lia. Qed.

Lemma costs_emit k e : costs k (emit e).
Proof. intros w. simpl. lia. Qed.

Lemma costs_le {A} k k' (m : M A) : costs k m -> (k <= k')%nat -> costs k' m.
Proof. intros Hm Hk w. specialize (Hm w). lia. Qed.

Lemma costs_bind {A B} k1 k (m : M A) (f : A -> M B) :
  costs k1 m -> (k1 <= k)%nat -> (forall a, costs (k - k1) (f a)) -> costs k (m ≫= f).
Proof.
  intros Hm Hk Hf w. unfold mbind, M_bind. specialize (Hm w).
  destruct (m w) as [[a|e] w1]; simpl in *; [|lia].
  specialize (Hf a w1). lia.
Qed.

Lemma costs_try {A} k1 k (m : M A) (h : JsError -> M A) :
  costs k1 m -> (k1 <= k)%nat -> (forall e, costs (k - k1) (h e)) -> costs k (try_catch m h).
Proof.
  intros Hm Hk Hh w. unfold try_catch. specialize (Hm w).
  destruct (m w) as [[a|e] w1]; simpl in *; [lia|].
  specialize (Hh e w1). lia.
Qed.

Lemma costs_requestLoop left : forall i retries backoff method u body cfg ctx,
  costs left (requestLoop env left i retries backoff method u body cfg ctx).
Proof.
  induction left as [|left IH]; intros i retries backoff method u body cfg ctx w.
  { simpl. lia. }
  rewrite requestLoop_round, attempt_eq.
  destruct (request_of method u body cfg) as [req|]; simpl.
  - destruct (settle _ _); simpl; [lia|].
    destruct (i <? retries - 1)%nat; simpl; [|lia].
    etrans; [apply IH|]. simpl. lia.
  - destruct (i <? retries - 1)%nat; simpl; [|lia].
    etrans; [apply IH|]. simpl. lia.
Qed.

Lemma costs_requestWithRetry method u body cfg retries backoff ctx :
  costs retries (requestWithRetry env method u body cfg retries backoff ctx).
Proof. apply costs_requestLoop. Qed.

Lemma costs_newAgent k proxy : costs k (newAgent proxy).
Proof.
  intros w. unfold newAgent.
  repeat (simpl; try lia;
    match goal with |- context [match ?x with _ => _ end] => destruct x end).
Qed.

Lemma costs_getAxiosConfig k proxy token : costs k (getAxiosConfig proxy token).
Proof.
  unfold getAxiosConfig. destruct (truthy proxy); [|apply costs_ret].
  apply costs_bind with (k1 := 0%nat); [apply costs_newAgent|lia|].
  intros a. apply costs_ret.
Qed.

End Costs.

Ltac costs_step :=
  lazymatch goal with
  | |- costs _ (requestWithRetry _ _ _ _ _ ?n _ _ ≫= _) =>
      apply costs_bind with (k1 := n); [apply costs_requestWithRetry|simpl; lia|intros ?; simpl]
  | |- costs _ (requestWithRetry _ _ _ _ _ ?n _ _) =>
      apply costs_le with (k := n); [apply costs_requestWithRetry|simpl; lia]
  | |- costs _ (mbind _ _) =>
      apply costs_bind with (k1 := 0%nat); [|simpl; lia|intros ?; rewrite ?Nat.sub_0_r]
  | |- costs _ (mret _) => apply costs_ret
  | |- costs _ (throw _) => apply costs_throw
  | |- costs _ (lift _) => apply costs_lift
  | |- costs _ (body_prop _ _) => apply costs_lift
  | |- costs _ (emit _) => apply costs_emit
  | |- costs _ (logger _ _) => apply costs_emit
  | |- costs _ (delay _) => apply costs_emit
  | |- costs _ (printInfo _ _ _) => apply costs_emit
  | |- costs _ (getAxiosConfig _ _) => apply costs_getAxiosConfig
  | |- costs ?k (try_catch _ _) =>
      apply costs_try with (k1 := k); [|lia|intros ?; rewrite ?Nat.sub_diag]
  | |- costs _ (if ?b then _ else _) => destruct b
  | |- costs _ (match ?x with _ => _ end) => destruct x
  end.

Section Budgets.
Context {rt : Runtime} (env : Env).

Lemma costs_getPublicIP proxy ctx : costs 3 (getPublicIP env proxy ctx).
Proof. unfold getPublicIP. repeat costs_step. Qed.

Lemma costs_login keypair proxy ctx : costs 6 (login env keypair proxy ctx).
Proof. unfold login. repeat costs_step. Qed.

Lemma costs_dailyCheckin token proxy ctx : costs 3 (dailyCheckin env token proxy ctx).
Proof. unfold dailyCheckin. repeat costs_step. Qed.

Lemma costs_fetchActiveTasks token proxy ctx : costs 6 (fetchActiveTasks env token proxy ctx).
Proof.
  unfold fetchActiveTasks. costs_step; [costs_step|]. costs_step; [|repeat costs_step].
  apply costs_bind with (k1 := 6%nat); [|lia|intros ?; repeat costs_step].
  simpl. unfold catalogRequest.
  apply costs_bind with (k1 := 3%nat); [repeat costs_step|lia|intros r1; simpl].
  costs_step; [costs_step|].
  apply costs_bind with (k1 := 3%nat); [repeat costs_step|lia|intros r2; simpl].
  repeat costs_step.
Qed.

Lemma costs_completeTask token taskId description proxy ctx :
  costs 3 (completeTask env token taskId description proxy ctx).
Proof. unfold completeTask. repeat costs_step. Qed.

Lemma costs_fetchProfileInfo token proxy ctx : costs 3 (fetchProfileInfo env token proxy ctx).
Proof. unfold fetchProfileInfo. repeat costs_step. Qed.

Lemma costs_completeOne t count token proxy ctx :
  costs 3 (completeOne env t count token proxy ctx).
Proof.
  unfold completeOne. costs_step; [|repeat costs_step].
  costs_step; [costs_step|]. costs_step; [costs_step|].
  apply costs_bind with (k1 := 3%nat); [apply costs_completeTask|lia|intros r; simpl].
  costs_step.
Qed.

Lemma costs_completeAll pending : forall count token proxy ctx,
  costs (3 * length pending) (completeAll env pending count token proxy ctx).
Proof.
  induction pending as [|t pending IH]; intros; [apply costs_ret|].
  cbn [completeAll].
  apply costs_bind with (k1 := 3%nat); [apply costs_completeOne|simpl; lia|intros c].
  costs_step; [costs_step|]. costs_step; [costs_step|].
  eapply costs_le; [apply IH|]. simpl. lia.
Qed.

Lemma pendingFilter_length tasks : forall pending,
  pendingFilter tasks = Ok pending -> (length pending <= length tasks)%nat.
Proof.
  induction tasks as [|t tasks IH]; intros pending; simpl.
  - intros [= <-]. done.
  - destruct (prop t "user_completion") as [marker|]; [|done].
    destruct (pendingFilter tasks) as [kept|]; [|done].
    intros [= <-]. specialize (IH kept eq_refl).
    destruct (is_null marker); simpl; lia.
Qed.

Lemma costs_taskPass activeTasks token proxy ctx :
  costs (3 * length activeTasks + 3) (taskPass env activeTasks token proxy ctx).
Proof.
  unfold taskPass. intros w. rewrite bind_lift.
  destruct (pendingFilter activeTasks) as [pending|e] eqn:Hp; [|simpl; lia].
  apply pendingFilter_length in Hp. revert w.
  change (costs (3 * length activeTasks + 3)
    ((if (length pending =? 0)%nat then logger INFO (NoTasksReady ctx)
      else completedCount ← completeAll env pending 0 token proxy ctx;
           logger INFO (Processed (length pending) completedCount ctx));;
     formatTaskTable activeTasks ctx;;
     updatedProfileInfo ← fetchProfileInfo env token proxy ctx;
     match updatedProfileInfo with
     | Some p => printProfileInfo (profileAddress p) (userId p) (totalPoints p) ctx
     | None => logger WARN (FailedProfileDisplay ctx)
     end;;
     logger INFO (CompletedAccount ctx))).
  apply costs_bind with (k1 := (3 * length pending)%nat); [|lia|intros _].
  { destruct (length pending =? 0)%nat; [costs_step|].
    apply costs_bind with (k1 := (3 * length pending)%nat);
      [apply costs_completeAll|lia|intros c; costs_step]. }
  costs_step; [unfold formatTaskTable; repeat costs_step|].
  apply costs_bind with (k1 := 3%nat); [apply costs_fetchProfileInfo|lia|intros p].
  costs_step; [|costs_step].
  costs_step; [unfold printProfileInfo; repeat costs_step|costs_step].
Qed.

(** X6. [requestWithRetry] makes at most [retries] HTTP calls, so each
    operation has a fixed budget: three calls for the address lookup, the
    check-in, a completion and the profile, six for the login (challenge and
    verification) and for the two catalogs, and for the task pass three per
    active task plus three. *)
Theorem request_budgets :
  (forall method u body cfg retries backoff ctx,
     costs retries (requestWithRetry env method u body cfg retries backoff ctx)) /\
  (forall proxy ctx, costs 3 (getPublicIP env proxy ctx)) /\
  (forall keypair proxy ctx, costs 6 (login env keypair proxy ctx)) /\
  (forall token proxy ctx, costs 3 (dailyCheckin env token proxy ctx)) /\
  (forall token proxy ctx, costs 6 (fetchActiveTasks env token proxy ctx)) /\
  (forall token taskId description proxy ctx,
     costs 3 (completeTask env token taskId description proxy ctx)) /\
  (forall token proxy ctx, costs 3 (fetchProfileInfo env token proxy ctx)) /\
  (forall activeTasks token proxy ctx,
     costs (3 * length activeTasks + 3) (taskPass env activeTasks token proxy ctx)).
Proof.
  split_and!; intros.
  - apply costs_requestWithRetry.
  - apply costs_getPublicIP.
  - apply costs_login.
  - apply costs_dailyCheckin.
  - apply costs_fetchActiveTasks.
  - apply costs_completeTask.
  - apply costs_fetchProfileInfo.
  - apply costs_taskPass.
Qed.

End Budgets.

Section Files.
Context {rt : Runtime} (env : Env).

(** X7. [readPKs] and [readProxies] never throw and make no HTTP call: each
    reads its file once, logs one line, and returns the entries of the file,
    or no entry when the file cannot be read. [readPKs] logs an error
    exactly when the read failed; [readProxies] logs a warning exactly when
    it returns no entry. *)
Theorem input_files_spec w :
  let listed name := match readFile env (reads w) name with
                     | inr content => entries content
                     | inl _ => []
                     end in
  let after_read e := {| globalUseProxy := globalUseProxy w;
                         globalProxies := globalProxies w;
                         calls := calls w;
                         reads := S (reads w);
                         trace := trace w ++ [e] |} in
  (exists lvl line,
     readPKs env w = (Ok (listed "pk.txt"), after_read (Log lvl line)) /\
     (lvl = ERROR <-> exists msg, readFile env (reads w) "pk.txt" = inl msg)) /\
  (exists lvl line,
     readProxies env w = (Ok (listed "proxy.txt"), after_read (Log lvl line)) /\
     (lvl = WARN <-> listed "proxy.txt" = [])).
Proof.
  intros listed after_read. subst listed after_read. cbv beta. split.
  - unfold readPKs, try_catch, fsRead, mbind, M_bind. simpl.
    destruct (readFile env (reads w) "pk.txt") as [msg|content]; simpl.
    + exists ERROR, (FailedReadPk msg). split; [done|]. split; [by eexists|done].
    + exists INFO, (LoadedKeys (length (entries content))). split; [done|].
      split; [done|]. by intros [msg ?].
  - unfold readProxies, try_catch, fsRead, mbind, M_bind. simpl.
    destruct (readFile env (reads w) "proxy.txt") as [msg|content]; simpl.
    + exists WARN, ProxyFileNotFound. done.
    + destruct (entries content) as [|p l] eqn:E; simpl.
      * exists WARN, NoProxiesFound. done.
      * exists INFO, (LoadedProxies (S (length l))). done.
Qed.

End Files.

(** ** How an account ends, and the start-up *)

Section Ends.
Context {rt : Runtime} (env : Env).

Lemma ends_emit e : ends e (emit e).
Proof. intros w a w' E. injection E as _ <-. by exists (trace w). Qed.

Lemma ends_bind {A B} e (m : M A) (f : A -> M B) :
  (forall a, ends e (f a)) -> ends e (m ≫= f).
Proof.
  intros Hf w b w'. unfold mbind, M_bind.
  destruct (m w) as [[a|e0] w1]; [apply Hf|done].
Qed.

Lemma ends_taskPass activeTasks token proxy ctx :
  ends (Log INFO (CompletedAccount ctx)) (taskPass env activeTasks token proxy ctx).
Proof. unfold taskPass. do 5 (apply ends_bind; intros ?). apply ends_emit. Qed.

(** X13. Processing an account never throws and always ends with a
    verdict as its last line: the account was completed, an error stopped
    it, or the key was invalid, in which case nothing happened between the
    opening line and the verdict. *)
Theorem processAccount_verdict pk index total proxy w :
  let ctx := accountContext index total in
  exists w' t,
    processAccount env pk index total proxy w = (Ok tt, w') /\
    (trace w' = t ++ [Log INFO (CompletedAccount ctx)] \/
     (exists msg, trace w' = t ++ [Log ERROR (ErrorProcessingAccount msg ctx)]) \/
     (exists msg, decodeKeypair pk = inl msg /\
        trace w' = trace w ++ [Log INFO (StartingAccount ctx);
                               Log ERROR (InvalidPrivateKey msg ctx)])).
Proof.
  intros ctx. unfold processAccount. cbv zeta. fold (accountContext index total). fold ctx.
  unfold logger. rewrite bind_emit.
  destruct (decodeKeypair pk) as [msg|keypair].
  { eexists _, (trace w). split; [done|]. right. right. exists msg. split; [done|].
    simpl. by rewrite <- app_assoc. }
  set (w0 := after w _).
  unfold session, printInfo, logger. rewrite !bind_emit, after_after.
  set (w1 := after w0 _).
  destruct (getPublicIP_safe env proxy ctx w1) as (ip & w2 & Eip).
  erewrite bind_ok by exact Eip. rewrite bind_emit.
  set (w3 := after w2 _). unfold try_catch.
  match goal with |- context [(?m ≫= ?f) w3] =>
    pose proof (ends_bind (Log INFO (CompletedAccount ctx)) m f) as He;
    destruct ((m ≫= f) w3) as [[[]|e] w4] eqn:E end.
  - edestruct He as (t & Ht); [|exact E|].
    { intros token. do 3 (apply ends_bind; intros ?). apply ends_taskPass. }
    exists w4, t. split; [done|by left].
  - eexists _, (trace w4). split; [done|]. right. left. by exists (message e).
Qed.

End Ends.

Section Startup.
Context {rt : Runtime} (env : Env).

(** X15. [initializeConfig] never throws and makes no HTTP call. When the
    answer, trimmed and in lower case, is y, the proxy file is read once,
    the proxy list becomes its entries (no entry when it cannot be read) and
    proxying is on exactly when there is an entry; with any other answer
    the two variables stay as they are, no file is read and one line is
    logged. *)
Theorem initializeConfig_spec w :
  let w' := (initializeConfig env w).2 in
  let listed := match readFile env (reads w) "proxy.txt" with
                | inr content => entries content
                | inl _ => []
                end in
  (initializeConfig env w).1 = Ok tt /\
  calls w' = calls w /\
  if String.eqb (toLowerCase (trim (answer env))) "y" then
    globalProxies w' = listed /\
    globalUseProxy w' = negb (length listed =? 0)%nat /\
    reads w' = S (reads w)
  else
    globals w' = globals w /\ reads w' = reads w /\
    trace w' = trace w ++ [Log INFO ProceedingWithoutProxy].
Proof.
  unfold initializeConfig.
  destruct (String.eqb (toLowerCase (trim (answer env))) "y"); [|done].
  unfold readProxies, try_catch, fsRead, setUseProxy, setProxies, mbind, M_bind. simpl.
  destruct (readFile env (reads w) "proxy.txt") as [msg|content]; simpl; [done|].
  destruct (length (entries content) =? 0)%nat eqn:Hl; simpl; rewrite Hl; done.
Qed.

End Startup.

Section Lines.
Context {rt : Runtime}.

Lemma split_lines_cons data : exists line more, split_lines data = line :: more.
Proof.
  induction data as [|c rest (line & more & IH)]; simpl; [by eexists _, _|].
  destruct (Ascii.eqb c (Ascii.ascii_of_nat 10)); [by eexists _, _|].
  rewrite IH. by eexists _, _.
Qed.

Lemma join_split data : join_lines (split_lines data) = data.
Proof.
  induction data as [|c rest IH]; [done|].
  cbn [split_lines].
  destruct (Ascii.eqb_spec c (Ascii.ascii_of_nat 10)) as [->|Hc].
  - destruct (split_lines_cons rest) as (line & more & E).
    rewrite E in *. cbn [join_lines]. cbn [join_lines] in IH.
    change (String.append EmptyString ?s) with s. by rewrite IH.
  - destruct (split_lines_cons rest) as (line & more & E).
    rewrite E in *. destruct more as [|l2 more].
    + cbn [join_lines] in *. by rewrite IH.
    + cbn [join_lines] in *.
      change (String.append (String c line) ?s) with (String c (String.append line s)).
      by rewrite IH.
Qed.

Lemma split_lines_without data : Forall (without (Ascii.ascii_of_nat 10)) (split_lines data).
Proof.
  induction data as [|c rest IH]; [by repeat constructor|].
  cbn [split_lines].
  destruct (Ascii.eqb_spec c (Ascii.ascii_of_nat 10)) as [->|Hc].
  - by constructor.
  - destruct (split_lines rest) as [|line more]; [by repeat constructor|].
    apply Forall_cons in IH as [H1 H2]. constructor; [|done]. by split.
Qed.

(** X8. How the input files are cut into entries: joining the lines with a
    newline gives the file back, no line holds a newline, every entry is a
    trimmed line that is not empty, and there are at most as many entries
    as lines. *)
Theorem entries_are_trimmed_lines data :
  join_lines (split_lines data) = data /\
  Forall (without (Ascii.ascii_of_nat 10)) (split_lines data) /\
  Forall (fun e => e <> EmptyString /\ exists line, In line (split_lines data) /\ e = trim line)
         (entries data) /\
  (length (entries data) <= length (split_lines data))%nat.
Proof.
  split_and!.
  - apply join_split.
  - apply split_lines_without.
  - unfold entries. apply List.Forall_forall. intros e He.
    apply filter_In in He as [He Hn].
    apply in_map_iff in He as (line & <- & Hl).
    split; [|by exists line].
    intros E. rewrite E in Hn. done.
  - unfold entries. etrans; [apply List.filter_length_le|]. by rewrite length_map.
Qed.

End Lines.

(** ** The requests a computation sends *)

Lemma requests_app t1 t2 : requests (t1 ++ t2) = requests t1 ++ requests t2.
Proof. unfold requests, https. by rewrite omap_app, fmap_app. Qed.

Section Sends.
Context {rt : Runtime} (env : Env) (R : Request -> Prop).

Lemma sends_ret {A} (Q : A -> Prop) a : Q a -> sends R Q (mret a).
Proof.
  intros Ha w. split; [exists []; by rewrite app_nil_r|]. by intros a' [= <-].
Qed.

Lemma sends_throw {A} (Q : A -> Prop) e : sends R Q (throw e).
Proof. intros w. split; [exists []; by rewrite app_nil_r|done]. Qed.

Lemma sends_lift {A} (Q : A -> Prop) (r : Res A) :
  (forall a, r = Ok a -> Q a) -> sends R Q (lift r).
Proof. intros Hr w. split; [exists []; by rewrite app_nil_r|]. apply Hr. Qed.

Lemma sends_emit (Q : unit -> Prop) e :
  (forall req ans, e <> Http req ans) -> Q tt -> sends R Q (emit e).
Proof.
  intros He Hq w. split; [|by intros []].
  exists [e]. split; [done|]. destruct e; try by constructor. by destruct (He req ans).
Qed.

Lemma sends_weaken {A} (Q Q' : A -> Prop) m :
  sends R Q m -> (forall a, Q a -> Q' a) -> sends R Q' m.
Proof. intros Hm HQ w. destruct (Hm w) as [Ht Ha]. split; [done|]. eauto. Qed.

Lemma sends_bind {A B} (Q : A -> Prop) (Q' : B -> Prop) (m : M A) (f : A -> M B) :
  sends R Q m -> (forall a, Q a -> sends R Q' (f a)) -> sends R Q' (m ≫= f).
Proof.
  intros Hm Hf w. unfold mbind, M_bind.
  destruct (Hm w) as [(t & Ht & HR) Ha].
  destruct (m w) as [[a|e] w1]; simpl in *; [|split; [eauto|done]].
  destruct (Hf a (Ha a eq_refl) w1) as [(t' & Ht' & HR') Hb].
  split; [|done].
  exists (t ++ t'). rewrite Ht', Ht, app_assoc, requests_app. split; [done|].
  by apply Forall_app.
Qed.

Lemma sends_try {A} (Q Q0 : A -> Prop) (m : M A) (h : JsError -> M A) :
  sends R Q0 m -> (forall a, Q0 a -> Q a) -> (forall e, sends R Q (h e)) ->
  sends R Q (try_catch m h).
Proof.
  intros Hm HQ Hh w. unfold try_catch.
  destruct (Hm w) as [(t & Ht & HR) Ha].
  destruct (m w) as [[a|e] w1]; simpl in *; [split; [eauto|]|].
  { intros a' [= <-]. eauto. }
  destruct (Hh e w1) as [(t' & Ht' & HR') Hb].
  split; [|done].
  exists (t ++ t'). rewrite Ht', Ht, app_assoc, requests_app. split; [done|].
  by apply Forall_app.
Qed.

Lemma sends_throw_bind {A B} (Q : B -> Prop) e (f : A -> M B) : sends R Q (throw e ≫= f).
Proof. intros w. split; [exists []; by rewrite app_nil_r|done]. Qed.

Lemma sends_requestLoop left : forall i retries backoff method u body cfg ctx,
  (forall req, request_of method u body cfg = Some req -> R req) ->
  sends R (fun _ => True) (requestLoop env left i retries backoff method u body cfg ctx).
Proof.
  induction left as [|left IH]; intros i retries backoff method u body cfg ctx HR w.
  { split; [exists []; by rewrite app_nil_r|done]. }
  split; [|done].
  rewrite requestLoop_round, attempt_eq.
  destruct (request_of method u body cfg) as [req|] eqn:Hreq; simpl.
  - pose proof (HR req eq_refl) as Hq.
    assert (HR' : forall r0, request_of method u body cfg = Some r0 -> R r0).
    { intros r0 E. apply HR. by rewrite <- Hreq, E. }
    destruct (settle _ _) as [r|e].
    + exists [Http req (wire env (calls w) req)]. split; [done|]. by constructor.
    + destruct (i <? retries - 1)%nat.
      * edestruct (IH (S i) retries (backoff * one_and_a_half)%Qc method u body cfg ctx HR')
          as [(t & Ht & Hf) _].
        exists ([Http req (wire env (calls w) req)] ++
                [Log WARN (Retrying (server_error e) method u (i + 1) retries ctx);
                 Timer backoff] ++ t).
        rewrite Ht. cbn [trace after called]. rewrite <- !app_assoc. split; [done|].
        rewrite !requests_app. apply Forall_app. split; [by constructor|done].
      * exists [Http req (wire env (calls w) req)]. split; [done|]. by constructor.
  - assert (HR' : forall r0, request_of method u body cfg = Some r0 -> R r0).
    { intros r0 E. by rewrite Hreq in E. }
    destruct (i <? retries - 1)%nat.
    + edestruct (IH (S i) retries (backoff * one_and_a_half)%Qc method u body cfg ctx HR')
        as [(t & Ht & Hf) _].
      exists ([Log WARN (Retrying false method u (i + 1) retries ctx); Timer backoff] ++ t).
      rewrite Ht. cbn [trace after]. rewrite <- !app_assoc. split; [done|].
      by rewrite requests_app.
    + exists []. split; [by rewrite app_nil_r|constructor].
Qed.

Lemma sends_requestWithRetry method u body cfg retries backoff ctx :
  (forall req, request_of method u body cfg = Some req -> R req) ->
  sends R (fun _ => True) (requestWithRetry env method u body cfg retries backoff ctx).
Proof. apply sends_requestLoop. Qed.

Lemma sends_getAxiosConfig proxy token :
  sends R (fun cfg => cfg = configFor proxy token DefaultStatus) (getAxiosConfig proxy token).
Proof.
  unfold getAxiosConfig, configFor, agentOf.
  destruct (truthy proxy) eqn:Hp.
  2:{ apply sends_ret. destruct proxy; try done. }
  unfold newAgent, httpScheme, socksScheme.
  destruct proxy as [| |b|q|p|l|m]; try done;
    try (apply sends_throw_bind).
  destruct (String.prefix "http://" p || String.prefix "https://" p).
  { destruct (urlError p); [apply sends_throw_bind|].
    apply sends_bind with (Q := fun a => a = Some (HttpsProxyAgent p));
      [by apply sends_ret|]. intros a ->. by apply sends_ret. }
  destruct (String.prefix "socks4://" p || String.prefix "socks5://" p).
  { destruct (urlError p); [apply sends_throw_bind|].
    apply sends_bind with (Q := fun a => a = Some (SocksProxyAgent p));
      [by apply sends_ret|]. intros a ->. by apply sends_ret. }
  eapply sends_bind with (Q := fun a => a = None).
  - eapply sends_bind with (Q := fun _ => True); [by apply sends_emit|].
    intros _ _. by apply sends_ret.
  - intros a ->. by apply sends_ret.
Qed.

End Sends.

Ltac req_ok :=
  let req := fresh "req" in
  let H := fresh "H" in
  intros req H; unfold request_of in H; simpl in H; injection H as <-;
  split; reflexivity.

Ltac sends_step :=
  lazymatch goal with
  | |- sends _ _ (getAxiosConfig _ _ ≫= _) =>
      eapply sends_bind; [apply sends_getAxiosConfig | intros ? ->]
  | |- sends _ _ (throw _ ≫= _) => apply sends_throw_bind
  | |- sends _ _ (mbind _ _) => eapply sends_bind with (Q := fun _ => True); [|intros ? _]
  | |- sends _ _ (mret _) => apply sends_ret; try done
  | |- sends _ _ (throw _) => apply sends_throw
  | |- sends _ _ (lift _) => apply sends_lift; try done
  | |- sends _ _ (body_prop _ _) => apply sends_lift; try done
  | |- sends _ _ (try_catch _ _) =>
      eapply sends_try with (Q0 := fun _ => True); [|done|intros ?]
  | |- sends _ _ (emit _) => apply sends_emit; [done|done]
  | |- sends _ _ (logger _ _) => apply sends_emit; [done|done]
  | |- sends _ _ (delay _) => apply sends_emit; [done|done]
  | |- sends _ _ (printInfo _ _ _) => apply sends_emit; [done|done]
  | |- sends _ _ (requestWithRetry _ _ _ _ _ _ _ _) => apply sends_requestWithRetry; req_ok
  | |- sends _ _ (if ?b then _ else _) => destruct b
  | |- sends _ _ (match ?x with _ => _ end) => destruct x
  end.

Section Discipline.
Context {rt : Runtime} (env : Env) (proxy token : value).

Lemma sends_getPublicIP ctx :
  sends (disciplined proxy token) (fun _ => True) (getPublicIP env proxy ctx).
Proof. unfold getPublicIP. repeat sends_step. Qed.

Lemma sends_login keypair ctx :
  sends (disciplined proxy token) (fun _ => True) (login env keypair proxy ctx).
Proof. unfold login. repeat sends_step. Qed.

Lemma sends_dailyCheckin ctx :
  sends (disciplined proxy token) (fun _ => True) (dailyCheckin env token proxy ctx).
Proof. unfold dailyCheckin. repeat sends_step. Qed.

Lemma sends_catalogRequest u ctx :
  u = UrlTasksOnce \/ u = UrlTasksDaily ->
  sends (disciplined proxy token) (fun _ => True) (catalogRequest env u token proxy ctx).
Proof. intros [-> | ->]; unfold catalogRequest; repeat sends_step. Qed.

Lemma sends_fetchCatalogs urls : forall allTasks ctx,
  Forall (fun u => u = UrlTasksOnce \/ u = UrlTasksDaily) urls ->
  sends (disciplined proxy token) (fun _ => True) (fetchCatalogs env urls allTasks token proxy ctx).
Proof.
  induction urls as [|u urls IH]; intros allTasks ctx Hu; simpl; [by apply sends_ret|].
  apply Forall_cons in Hu as [Hu Hus].
  sends_step; [by apply sends_catalogRequest|].
  sends_step; [sends_step|]. by apply IH.
Qed.

Lemma sends_fetchActiveTasks ctx :
  sends (disciplined proxy token) (fun _ => True) (fetchActiveTasks env token proxy ctx).
Proof.
  unfold fetchActiveTasks. sends_step; [sends_step|]. sends_step; [|repeat sends_step].
  sends_step; [|repeat sends_step].
  apply sends_fetchCatalogs.
  constructor; [by left|constructor; [by right|constructor]].
Qed.

Lemma sends_completeTask taskId description ctx :
  sends (disciplined proxy token) (fun _ => True)
    (completeTask env token taskId description proxy ctx).
Proof. unfold completeTask. repeat sends_step. Qed.

Lemma sends_fetchProfileInfo ctx :
  sends (disciplined proxy token) (fun _ => True) (fetchProfileInfo env token proxy ctx).
Proof. unfold fetchProfileInfo. repeat sends_step. Qed.

Lemma sends_completeOne t count ctx :
  sends (disciplined proxy token) (fun _ => True) (completeOne env t count token proxy ctx).
Proof.
  unfold completeOne. sends_step; [|repeat sends_step].
  sends_step; [sends_step|]. sends_step; [sends_step|].
  sends_step; [apply sends_completeTask|]. repeat sends_step.
Qed.

Lemma sends_completeAll pending : forall count ctx,
  sends (disciplined proxy token) (fun _ => True) (completeAll env pending count token proxy ctx).
Proof.
  induction pending as [|t pending IH]; intros; simpl; [by apply sends_ret|].
  sends_step; [apply sends_completeOne|]. sends_step; [sends_step|].
  sends_step; [sends_step|]. apply IH.
Qed.

Lemma sends_formatTaskTable tasks ctx :
  sends (disciplined proxy token) (fun _ => True) (formatTaskTable tasks ctx).
Proof. unfold formatTaskTable. repeat sends_step. Qed.

Lemma sends_printProfileInfo a u p ctx :
  sends (disciplined proxy token) (fun _ => True) (printProfileInfo a u p ctx).
Proof. unfold printProfileInfo. repeat sends_step. Qed.

Lemma sends_taskPass activeTasks ctx :
  sends (disciplined proxy token) (fun _ => True) (taskPass env activeTasks token proxy ctx).
Proof.
  unfold taskPass. sends_step; [sends_step|].
  sends_step.
  - destruct (length _ =? 0)%nat; [sends_step|].
    sends_step; [apply sends_completeAll|sends_step].
  - sends_step; [apply sends_formatTaskTable|].
    sends_step; [apply sends_fetchProfileInfo|].
    sends_step; [|sends_step].
    sends_step; [apply sends_printProfileInfo|sends_step].
Qed.

End Discipline.

Section Session.
Context {rt : Runtime} (env : Env).

Lemma sends_afterLogin proxy token ctx :
  sends (disciplined proxy token) (fun _ => True)
    (dailyCheckin env token proxy ctx;;
     logger INFO (StartingTasks ctx);;
     activeTasks ← fetchActiveTasks env token proxy ctx;
     taskPass env activeTasks token proxy ctx).
Proof.
  sends_step; [apply sends_dailyCheckin|].
  sends_step; [sends_step|].
  sends_step; [apply sends_fetchActiveTasks|].
  apply sends_taskPass.
Qed.

Lemma requests_log lvl line : requests [Log lvl line] = [].
Proof. done. Qed.

Lemma session_disciplined keypair proxy ctx w :
  exists token t,
    trace (session env keypair proxy ctx w).2 = trace w ++ t /\
    Forall (disciplined proxy token) (requests t).
Proof.
  unfold session, printInfo, logger. rewrite !bind_emit, after_after.
  set (w1 := after w _).
  destruct (getPublicIP_safe env proxy ctx w1) as (ip & w2 & Eip).
  erewrite bind_ok by exact Eip. rewrite bind_emit.
  set (w3 := after w2 _).
  assert (Hip : forall token, exists t, trace w2 = trace w1 ++ t /\
                  Forall (disciplined proxy token) (requests t)).
  { intros token. destruct (sends_getPublicIP env proxy token ctx w1) as [H _].
    by rewrite Eip in H. }
  destruct (login env keypair proxy ctx w3) as [[token|e] w4] eqn:El.
  - destruct (Hip token) as (t2 & Ht2 & Hr2).
    destruct (sends_login env proxy token keypair ctx w3) as [(t4 & Ht4 & Hr4) _].
    rewrite El in Ht4. simpl in Ht4.
    destruct (sends_afterLogin proxy token ctx w4) as [(t5 & Ht5 & Hr5) _].
    unfold try_catch. erewrite bind_ok by exact El.
    match goal with |- context [(?m ≫= ?f) w4] =>
      destruct ((m ≫= f) w4) as [[[]|e] w5] eqn:E5 end;
      (match type of Ht5 with context [trace (?m w4).2] =>
         assert (E5' : m w4 = (_, w5)) by exact E5; rewrite E5' in Ht5 end);
      simpl in Ht5.
    + exists token, ([Header "Account Info" ctx;
                       Log INFO (Field "Address" (VStr (address keypair)) ctx)] ++ t2 ++
                     [Log INFO (Field "IP" ip ctx)] ++ t4 ++ t5).
      split.
      * simpl. rewrite Ht5, Ht4. subst w3. simpl. rewrite Ht2. subst w1. simpl.
        by rewrite <- !app_assoc.
      * rewrite !requests_app. repeat (apply Forall_app; split); try done; constructor.
    + exists token, ([Header "Account Info" ctx;
                       Log INFO (Field "Address" (VStr (address keypair)) ctx)] ++ t2 ++
                     [Log INFO (Field "IP" ip ctx)] ++ t4 ++ t5 ++
                     [Log ERROR (ErrorProcessingAccount (message e) ctx)]).
      split.
      * simpl. rewrite Ht5, Ht4. subst w3. simpl. rewrite Ht2. subst w1. simpl.
        by rewrite <- !app_assoc.
      * rewrite !requests_app. repeat (apply Forall_app; split); try done; constructor.
  - destruct (Hip VNull) as (t2 & Ht2 & Hr2).
    destruct (sends_login env proxy VNull keypair ctx w3) as [(t4 & Ht4 & Hr4) _].
    rewrite El in Ht4. simpl in Ht4.
    unfold try_catch. erewrite bind_throw by exact El.
    exists VNull, ([Header "Account Info" ctx;
                    Log INFO (Field "Address" (VStr (address keypair)) ctx)] ++ t2 ++
                   [Log INFO (Field "IP" ip ctx)] ++ t4 ++
                   [Log ERROR (ErrorProcessingAccount (message e) ctx)]).
    split.
    + simpl. rewrite Ht4. subst w3. simpl. rewrite Ht2. subst w1. simpl.
      by rewrite <- !app_assoc.
    + rewrite !requests_app. repeat (apply Forall_app; split); try done; constructor.
Qed.
End Session.

Section Pending.
Context {rt : Runtime} (env : Env) (active : list value).

Lemma pendingFilter_sound tasks : forall pending,
  pendingFilter tasks = Ok pending ->
  Forall (fun t => In t tasks /\ marker_absent t = true) pending.
Proof.
  induction tasks as [|t tasks IH]; intros pending; simpl.
  - intros [= <-]. constructor.
  - destruct (prop t "user_completion") as [marker|] eqn:Hp; [|done].
    destruct (pendingFilter tasks) as [kept|]; [|done].
    intros [= <-].
    assert (Hk : Forall (fun t0 => (t = t0 \/ In t0 tasks) /\ marker_absent t0 = true) kept).
    { eapply Forall_impl; [by apply IH|]. intros t0 [? ?]. auto. }
    destruct (is_null marker) eqn:Hn; [|done].
    constructor; [|done]. split; [by left|].
    destruct marker; try done.
    destruct t as [| | | | | |m]; try done.
    simpl in Hp. injection Hp as Hp. simpl.
    by destruct (m !! "user_completion") as [[]|].
Qed.

Lemma pending_completeTask token t id description proxy ctx :
  In t active -> marker_absent t = true -> prop t "id" = Ok id ->
  sends (completes_pending active) (fun _ => True)
    (completeTask env token id description proxy ctx).
Proof.
  intros Hin Hm Hid. unfold completeTask.
  sends_step; [sends_step|].
  cbv zeta. sends_step.
  sends_step; [sends_step|].
  sends_step; [|repeat sends_step].
  sends_step; [|repeat sends_step].
  apply sends_requestWithRetry.
  intros req H. unfold request_of in H. simpl in H. injection H as <-.
  right. exists t. split_and!; [done|done|]. unfold task_id. by rewrite Hid.
Qed.

Lemma pending_completeOne token t count proxy ctx :
  In t active -> marker_absent t = true ->
  sends (completes_pending active) (fun _ => True)
    (completeOne env t count token proxy ctx).
Proof.
  intros Hin Hm. unfold completeOne.
  sends_step; [|repeat sends_step].
  eapply sends_bind with (Q := fun id => prop t "id" = Ok id); [by apply sends_lift|].
  intros id Hid.
  sends_step; [sends_step|].
  sends_step; [by eapply pending_completeTask|]. repeat sends_step.
Qed.

Lemma pending_completeAll token proxy pending : forall count ctx,
  Forall (fun t => In t active /\ marker_absent t = true) pending ->
  sends (completes_pending active) (fun _ => True)
    (completeAll env pending count token proxy ctx).
Proof.
  induction pending as [|t pending IH]; intros count ctx Hp; simpl; [by apply sends_ret|].
  apply Forall_cons in Hp as [[Hin Hm] Hp].
  sends_step; [by apply pending_completeOne|]. sends_step; [sends_step|].
  sends_step; [sends_step|]. by apply IH.
Qed.

Lemma pending_fetchProfileInfo token proxy ctx :
  sends (completes_pending active) (fun _ => True) (fetchProfileInfo env token proxy ctx).
Proof.
  unfold fetchProfileInfo. sends_step. sends_step; [sends_step|].
  sends_step; [|repeat sends_step].
  sends_step; [|repeat sends_step].
  apply sends_requestWithRetry.
  intros req H. unfold request_of in H. simpl in H. injection H as <-. by left.
Qed.

(** X11. After the catalogs are fetched, the only requests of an account
    are the profile request and completions of tasks that are in the
    fetched list with a null completion marker, each addressed by the id of
    its task: a task that is already completed is never submitted. *)
Theorem taskPass_completes_pending_only token proxy ctx :
  sends (completes_pending active) (fun _ => True) (taskPass env active token proxy ctx).
Proof.
  unfold taskPass.
  eapply sends_bind with
    (Q := Forall (fun t => In t active /\ marker_absent t = true));
    [apply sends_lift; apply pendingFilter_sound|].
  intros pending Hp.
  sends_step.
  - destruct (length _ =? 0)%nat; [sends_step|].
    sends_step; [by apply pending_completeAll|sends_step].
  - sends_step; [unfold formatTaskTable; repeat sends_step|].
    sends_step; [apply pending_fetchProfileInfo|].
    sends_step; [|sends_step].
    sends_step; [unfold printProfileInfo; repeat sends_step|sends_step].
Qed.

End Pending.

Section Cycle.
Context {rt : Runtime} (env : Env).

Lemma processAccount_disciplined pk index total proxy w :
  exists token t,
    trace (processAccount env pk index total proxy w).2 = trace w ++ t /\
    Forall (disciplined proxy token) (requests t).
Proof.
  unfold processAccount. cbv zeta. unfold logger. rewrite bind_emit.
  destruct (decodeKeypair pk) as [msg|keypair].
  - exists VNull. eexists [_; _]. simpl. split; [by rewrite <- app_assoc|constructor].
  - set (ctx := {| account := index; total := total; task := None |}).
    destruct (session_disciplined env keypair proxy ctx
                (after w [Log INFO (StartingAccount ctx)])) as (token & t & Ht & HR).
    exists token, ([Log INFO (StartingAccount ctx)] ++ t). split.
    + rewrite Ht. simpl. by rewrite <- app_assoc.
    + by rewrite requests_app.
Qed.


Lemma disciplined_agent proxy token req :
  disciplined proxy token req -> httpsAgent (config req) = agentOf proxy.
Proof. intros [_ ->]. done. Qed.

(** X14. Every request made by the loop over the accounts goes through the
    agent of the proxy assigned to one of its accounts, as computed from
    the two variables at the start of the loop: no agent at all when
    proxying is off. *)
Theorem accounts_requests_use_assigned_proxy todo : forall i total w,
  exists t,
    trace (accounts env todo i total w).2 = trace w ++ t /\
    Forall (fun req =>
              exists k, (i <= k < i + length todo)%nat /\
                httpsAgent (config req) =
                  agentOf (assignedProxy (globalUseProxy w) (globalProxies w) k))
           (requests t).
Proof.
  induction todo as [|pk todo IH]; intros i total w.
  { exists []. simpl. rewrite app_nil_r. split; [done|constructor]. }
  set (proxy := assignedProxy (globalUseProxy w) (globalProxies w) i).
  destruct (processAccount_contained env pk i total proxy w)
    as (w1 & t1' & E1 & _ & _ & Hg1).
  destruct (processAccount_disciplined pk i total proxy w) as (token & t1 & Ht1 & HR1).
  rewrite E1 in Ht1. simpl in Ht1.
  simpl. unfold mbind at 1, M_bind at 1. unfold try_catch. fold proxy. rewrite E1.
  unfold delay. rewrite bind_emit.
  destruct (IH (S i) total (after w1 [Timer (num 5 * num 1000)])) as (t2 & Ht2 & HR2).
  exists (t1 ++ [Timer (num 5 * num 1000)] ++ t2). split.
  - rewrite Ht2. simpl. by rewrite Ht1, <- !app_assoc.
  - rewrite !requests_app. simpl. apply Forall_app. split.
    + eapply Forall_impl; [exact HR1|]. intros req Hd. exists i. split; [lia|].
      by eapply disciplined_agent.
    + eapply Forall_impl; [exact HR2|]. intros req (k & Hk & Ha). exists k. split; [lia|].
      rewrite Ha. simpl. unfold globals in Hg1. by injection Hg1 as -> ->.
Qed.

End Cycle.
